(** * Salesforce ID tool ([src/tools/sfidenum.py]): embedding and properties

    The tool decodes the base-62 record counter of a 15/18-character
    Salesforce ID and enumerates neighbouring IDs.  The pure functions of the
    script are embedded as Rocq functions; functions that can [raise] return
    a [result]; [main] returns the trace of its observable events together
    with the way the process ends. *)

From Stdlib Require Import ZArith NArith List Ascii Lia Bool Permutation.
From Stdlib Require String DecimalString.
From Equations Require Import Equations.
Import ListNotations.

Open Scope Z_scope.

(** ** Strings

    A Python [str] is a sequence of Unicode code points: a character is its
    code point, a string the list of its characters, so that slicing,
    reversal and concatenation are the list operations.  A string literal
    denotes the code points of its bytes. *)

Abbreviation char := N (only parsing).

Definition str := list char.

Inductive str_literal := SNil | SCons (c : N) (s : str_literal).

Fixpoint str_of_bytes (l : list Byte.byte) : str_literal :=
  match l with
  | [] => SNil
  | b :: l' => SCons (Byte.to_N b) (str_of_bytes l')
  end.

Fixpoint bytes_of_str (s : str_literal) : option (list Byte.byte) :=
  match s with
  | SNil => Some []
  | SCons c s' =>
      match Byte.of_N c, bytes_of_str s' with
      | Some b, Some l => Some (b :: l)
      | _, _ => None
      end
  end.

Declare Scope str_scope.
Delimit Scope str_scope with str.
#[warnings="-via-type-mismatch,-via-type-remapping"]
String Notation str str_of_bytes bytes_of_str
  (via str_literal mapping [[nil] => SNil, [cons] => SCons]) : str_scope.
Open Scope str_scope.

(** The character written as an ASCII literal. *)
Definition chr (a : ascii) : char := N_of_ascii a.

(** [len(s)] as a Python integer. *)
Definition len {A} (s : list A) : Z := Z.of_nat (length s).

(** [s[i:j]] for [0 <= i <= j]: Python clamps a slice to the string. *)
Definition slice (s : str) (i j : nat) : str := firstn (j - i) (skipn i s).

Definition between (lo hi : N) (c : char) : bool :=
  ((lo <=? c) && (c <=? hi))%N.

(** Code points of the ASCII range. *)
Definition is_ascii (c : char) : bool := (c <? 128)%N.

(** The characters [0-9A-Za-z]. *)
Definition ascii_alnum (c : char) : bool :=
  between 48 57 c || between 65 90 c || between 97 122 c.

(** Python classifies characters with the Unicode database of the
    interpreter, which is no part of the script: the classes of the code
    points from 128 on are a parameter of the model.  Below 128 they are
    fixed: upper case is [A-Z], alphanumeric is [0-9A-Za-z], whitespace is
    U+0009..U+000D and U+001C..U+0020. *)
Record Unicode := {
  unicode_isupper : char -> bool;
  unicode_isalnum : char -> bool;
  unicode_isspace : char -> bool
}.

(** A database that knows the code points below 256 only: upper case
    U+00C0..U+00D6 and U+00D8..U+00DE; alphanumeric U+00AA, U+00B2, U+00B3,
    U+00B5, U+00B9, U+00BA, U+00BC..U+00BE, U+00C0..U+00D6, U+00D8..U+00F6
    and U+00F8..U+00FF; whitespace U+0085 and U+00A0. *)
Definition latin1 : Unicode :=
  {| unicode_isupper := fun c => between 192 214 c || between 216 222 c;
     unicode_isalnum := fun c =>
       between 170 170 c || between 178 179 c || between 181 181 c
       || between 185 186 c || between 188 190 c
       || between 192 214 c || between 216 246 c || between 248 255 c;
     unicode_isspace := fun c => between 133 133 c || between 160 160 c |}.

(** Python lower-cases with the Unicode database as well: below 128 the
    letters [A-Z] become [a-z] and nothing else changes; from 128 on the
    result (one or more characters) is a parameter. *)
Record UnicodeCase := {
  unicode_lower : char -> str
}.

(** Lower case for the code points below 256: U+00C0..U+00D6 and
    U+00D8..U+00DE move up by 32, the others stay. *)
Definition latin1_case : UnicodeCase :=
  {| unicode_lower := fun c =>
       [if between 192 214 c || between 216 222 c then (c + 32)%N else c] |}.

(** ** Exceptions *)

Inductive Error :=
| NegativeInteger                  (* int_to_base62: n < 0 *)
| InvalidBase62Char (ch : char)   (* base62_to_int *)
| Not15ForChecksum                 (* id15_to_18: len(id15) != 15 *)
| EmptyId                          (* normalize_to_15: empty string *)
| BadIdLength                      (* normalize_to_15: not 15 or 18 long *)
| NotAlphanumeric                  (* normalize_to_15 *)
| Expected15                       (* split_id_components *)
| IndexError                       (* a sequence indexed out of range *)
| InvalidLiteral.                  (* int(bits, 2) on a malformed string *)

Inductive result (A : Type) :=
| Ok (a : A)
| Raise (e : Error).
Arguments Ok {A} a.
Arguments Raise {A} e.

Definition bind {A B} (r : result A) (k : A -> result B) : result B :=
  match r with
  | Ok a => k a
  | Raise e => Raise e
  end.

Notation "x <- r ;; k" := (bind r (fun x => k))
  (at level 61, r at next level, right associativity).
Notation "' p <- r ;; k" := (bind r (fun x => let p := x in k))
  (at level 61, p pattern, r at next level, right associativity).

(** [l[i]]: a negative index counts from the end; an index outside the
    sequence is an [IndexError]. *)
Definition index {A} (l : list A) (i : Z) : result A :=
  let j := if i <? 0 then i + len l else i in
  if j <? 0 then Raise IndexError
  else match nth_error l (Z.to_nat j) with
       | Some a => Ok a
       | None => Raise IndexError
       end.

(** ** The command line driver

    [main] is modelled after [parser.parse_args]: its input is the parsed
    namespace.  What the process does is recorded as a trace of events, and
    the run ends with an exit status, an uncaught exception or a blocked
    thread. *)

Inductive Mode := Decode | EnumFromValue | EnumFromCurrent.

Module Args.
Record t := {
  id : str;
  mode : Mode;
  start : option Z;
  seq : option Z;
  threads : Z;
  displayonly : bool;
  outfile : option str;
  to18 : bool
}.
End Args.

(** The messages written to [sys.stderr], by the statement that prints them. *)
Inductive Diagnostic :=
| DiagError (e : Error)      (* "Error: {e}" *)
| DiagSeqRequired            (* "--seq must be provided and non-zero ..." *)
| DiagStartRequired          (* "--start must be provided ..." *)
| DiagStartRange             (* "--start must be between 0 and ..." *)
| DiagNoValues               (* "No values generated ..." *)
| DiagWriteError.            (* "Error writing to file ..." *)

Inductive Call :=
| CallGen (start_value seq : Z)                   (* gen_value_sequence *)
| CallMakeId (prefix7 : str) (value : Z) (to18 : bool).  (* make_id *)

Inductive Event :=
| Stdout (line : str)        (* print(line) *)
| Stderr (d : Diagnostic)    (* print(..., file=sys.stderr) *)
| FileOpen (path : str)      (* open(path, "w"): created or truncated *)
| FileWrite (data : str)     (* f.write(data) *)
| Called (c : Call).

Inductive Status :=
| Exit (code : Z)            (* main returned code *)
| Uncaught (e : Error)       (* an exception left main *)
| Hang.                      (* main blocked on a full queue for ever *)

Definition Run : Type := list Event * Status.

Definition after (events : list Event) (r : Run) : Run :=
  (events ++ fst r, snd r).

Definition fail (d : Diagnostic) (code : Z) : Run := ([Stderr d], Exit code).

(** What the environment decides: the default output file name (script name
    and clock), the order in which the pool's futures complete (positions in
    the list of submitted futures), and whether the file system fails the
    writer thread. *)
Inductive Fault :=
| NoFault
| OpenFails                  (* open(outfile, "w") raises *)
| WriteFails (k : nat).      (* the write after k successful ones raises *)

Record Env := {
  default_output_filename : str;
  completion_order : nat -> list nat;
  fault : Fault
}.

(** A sample environment and sample invocations. *)
Definition env0 : Env :=
  {| default_output_filename := "sfidenum-20240101-000000.txt";
     completion_order := fun n => List.seq 0 n;
     fault := NoFault |}.

(** The sample environment with a file system that fails. *)
Definition env_with_fault (f : Fault) : Env :=
  {| default_output_filename := default_output_filename env0;
     completion_order := completion_order env0;
     fault := f |}.

Definition args0 (m : Mode) (st sq : option Z) (display : bool) : Args.t :=
  {| Args.id := "001Vc00000PHoN1IAL"; Args.mode := m;
     Args.start := st; Args.seq := sq; Args.threads := 1;
     Args.displayonly := display; Args.outfile := None; Args.to18 := false |}.

Section Tool.

Context (U : Unicode).

(** ** Character classes and stripping *)

(** [c.isupper()] for a one-character string. *)
Definition isupper (c : char) : bool :=
  if is_ascii c then between 65 90 c else unicode_isupper U c.

(** [c.isalnum()] for one character. *)
Definition isalnum_char (c : char) : bool :=
  if is_ascii c then ascii_alnum c else unicode_isalnum U c.

(** [s.isalnum()]: every character is alphanumeric and there is at least
    one. *)
Definition isalnum (s : str) : bool :=
  match s with
  | [] => false
  | _ => forallb isalnum_char s
  end.

(** The whitespace that [str.strip()] removes. *)
Definition isspace (c : char) : bool :=
  if is_ascii c then between 9 13 c || between 28 32 c
  else unicode_isspace U c.

Fixpoint lstrip (s : str) : str :=
  match s with
  | [] => []
  | c :: s' => if isspace c then lstrip s' else s
  end.

Definition rstrip (s : str) : str := rev (lstrip (rev s)).

Definition strip (s : str) : str := rstrip (lstrip s).

(** ** Base62 with the Salesforce alphabet *)

Definition ALPHABET : str :=
  "0123456789ABCDEFGHIJKLMNOPQRSTUVWXYZabcdefghijklmnopqrstuvwxyz".

Definition BASE : Z := len ALPHABET.

Definition MAX_BASE62_8 : Z := BASE ^ 8 - 1.

(** Termination measure of the digit loop: the binary length of [n]. *)
Definition bit_length (n : Z) : nat :=
  if n <=? 0 then 0%nat else S (Z.to_nat (Z.log2 n)).

(** The loop [while n > 0: n, r = divmod(n, BASE); chars.append(ALPHABET[r])]. *)
Equations? digits_loop (n : Z) (chars : str) : result str
  by wf (bit_length n) lt :=
  digits_loop n chars with Z_gt_dec n 0 => {
    | left _ with index ALPHABET (n mod BASE) => {
        | Ok c := digits_loop (n / BASE) (chars ++ [c]);
        | Raise e := Raise e };
    | right _ := Ok chars }.
Proof.
  (* halving at least: the quotient has a shorter binary numeral *)
  unfold bit_length. change BASE with 62.
  destruct (Z.leb_spec (n / 62) 0), (Z.leb_spec n 0); try lia.
  assert (Hd : 2 * (n / 62) <= n).
  { pose proof (Z.mul_div_le n 62 ltac:(lia)). lia. }
  pose proof (Z.log2_double (n / 62) ltac:(lia)).
  pose proof (Z.log2_le_mono _ _ Hd).
  pose proof (Z.log2_nonneg (n / 62)). lia.
Qed.

Definition int_to_base62 (n : Z) (min_len : Z) : result str :=
  if n <? 0 then Raise NegativeInteger
  else
    s <- (if n =? 0 then Ok "0"
          else chars <- digits_loop n [] ;; Ok (rev chars)) ;;
    if len s <? min_len
    then Ok (repeat (chr "0") (Z.to_nat (min_len - len s)) ++ s)
    else Ok s.

(** [ALPHABET.find(ch)]: the first position of [ch], or [-1]. *)
Fixpoint find_from (l : str) (ch : char) (i : Z) : Z :=
  match l with
  | [] => -1
  | c :: l' => if N.eqb c ch then i else find_from l' ch (i + 1)
  end.

Definition find (l : str) (ch : char) : Z := find_from l ch 0.

(** The loop of [base62_to_int], started with accumulator [n]. *)
Fixpoint base62_fold (s : str) (n : Z) : result Z :=
  match s with
  | [] => Ok n
  | ch :: s' =>
      let i := find ALPHABET ch in
      if i =? -1 then Raise (InvalidBase62Char ch)
      else base62_fold s' (n * BASE + i)
  end.

Definition base62_to_int (s : str) : result Z := base62_fold s 0.

(** ** The 15 -> 18 checksum *)

Definition _MAPPING : str := "ABCDEFGHIJKLMNOPQRSTUVWXYZ012345".

(** [int(bits, 2)] on the strings the checksum builds: a non-empty string
    of the characters '0' and '1', most significant bit first.  The empty
    string is a [ValueError]. *)
Fixpoint bits_fold (bits : str) (acc : Z) : result Z :=
  match bits with
  | [] => Ok acc
  | b :: bits' =>
      if N.eqb b (chr "1") then bits_fold bits' (2 * acc + 1)
      else if N.eqb b (chr "0") then bits_fold bits' (2 * acc)
      else Raise InvalidLiteral
  end.

Definition int_base2 (bits : str) : result Z :=
  match bits with
  | [] => Raise InvalidLiteral
  | _ => bits_fold bits 0
  end.

(** [for x in xs: out.append(f(x))] where [f] may raise. *)
Fixpoint for_each {A B} (f : A -> result B) (xs : list A) : result (list B) :=
  match xs with
  | [] => Ok []
  | x :: xs' => y <- f x ;; ys <- for_each f xs' ;; Ok (y :: ys)
  end.

(** The body of the loop over the reversed segments. *)
Definition suffix_char (seg : str) : result char :=
  let bits := map (fun c => if isupper c then (chr "1") else (chr "0")) seg in
  idx <- int_base2 bits ;;
  index _MAPPING idx.

Definition id15_to_18 (id15 : str) : result str :=
  if negb (len id15 =? 15) then Raise Not15ForChecksum
  else
    let segments := map (fun i => slice id15 i (i + 5)) [0; 5; 10]%nat in
    let reversed_segments := map (@rev char) segments in
    suffix_chars <- for_each suffix_char reversed_segments ;;
    Ok (id15 ++ suffix_chars).

(** ** Normalising and splitting an ID *)

Definition normalize_to_15 (sfid : str) : result str :=
  match sfid with
  | [] => Raise EmptyId
  | _ =>
      let sfid := strip sfid in
      core <- (if len sfid =? 18 then Ok (slice sfid 0 15)
               else if len sfid =? 15 then Ok sfid
               else Raise BadIdLength) ;;
      if negb (isalnum core) then Raise NotAlphanumeric
      else Ok core
  end.

Definition split_id_components (id15 : str) : result (str * str) :=
  if negb (len id15 =? 15) then Raise Expected15
  else
    let prefix7 := firstn 7 id15 in
    let counter8 := skipn 7 id15 in
    Ok (prefix7, counter8).

(** ** Composing an ID *)

Definition clamp_record_value (v : Z) : Z := Z.max 0 (Z.min MAX_BASE62_8 v).

Definition make_id (prefix7 : str) (value : Z) (to18 : bool)
  : result (str * str * Z) :=
  let v := clamp_record_value value in
  b62 <- int_to_base62 v 8 ;;
  let id15 := prefix7 ++ b62 in
  id_out <- (if to18 then id15_to_18 id15 else Ok id15) ;;
  Ok (id_out, b62, v).

(** ** The value sequence *)

(** The [while produced < count] loop; [remaining] is [count - produced]. *)
Fixpoint gen_loop (remaining : nat) (current step : Z) : list Z :=
  match remaining with
  | O => []
  | S remaining' =>
      if (0 <=? current) && (current <=? MAX_BASE62_8)
      then current :: gen_loop remaining' (current + step) step
      else []
  end.

(** The values the generator yields, in order. *)
Definition gen_value_sequence (start_value seq : Z) : list Z :=
  if seq =? 0 then []
  else
    let count := Z.abs seq in
    let step := if seq >? 0 then 1 else -1 in
    gen_loop (Z.to_nat count) start_value step.

(** ** The driver's functions *)

Definition as_completed {A} (env : Env) (futs : list A) : list A :=
  flat_map (fun i => match nth_error futs i with
                     | Some fut => [fut]
                     | None => []
                     end)
           (completion_order env (length futs)).

(** [print(current_value)]: the decimal numeral of an integer. *)
Definition str_of_int (z : Z) : str :=
  map chr (String.list_ascii_of_string
             (DecimalString.NilZero.string_of_int (Z.to_int z))).

Definition newline : char := 10%N.

(** [sfid_out, _, _ = make_id(prefix7, v, to18)]. *)
Definition compose (prefix7 : str) (to18 : bool) (v : Z) : result str :=
  '(sfid_out, _, _) <- make_id prefix7 v to18 ;; Ok sfid_out.

(** Sequential console sink: [for v in values: make_id ...; print(sfid_out)]. *)
Fixpoint print_each (prefix7 : str) (to18 : bool) (values : list Z) : Run :=
  match values with
  | [] => ([], Exit 0)
  | v :: values' =>
      after [Called (CallMakeId prefix7 v to18)]
        match compose prefix7 to18 v with
        | Raise e => ([], Uncaught e)
        | Ok sfid_out =>
            after [Stdout sfid_out] (print_each prefix7 to18 values')
        end
  end.

(** The results taken from a list of outcomes, up to the first exception. *)
Fixpoint until_raise (rs : list (result str)) : list str * option Error :=
  match rs with
  | [] => ([], None)
  | Raise e :: _ => ([], Some e)
  | Ok s :: rs' => let (ss, e) := until_raise rs' in (s :: ss, e)
  end.

(** Parallel console sink: every value is submitted, the results are printed
    in completion order until a [fut.result()] raises. *)
Definition print_completed (env : Env) (prefix7 : str) (to18 : bool)
    (values : list Z) : Run :=
  let futs := map (compose prefix7 to18) values in
  let (lines, exc) := until_raise (as_completed env futs) in
  after (map (fun v => Called (CallMakeId prefix7 v to18)) values)
    (map Stdout lines,
     match exc with Some e => Uncaught e | None => Exit 0 end).

Definition QUEUE_MAXSIZE : Z := 10000.

(** The writer thread, fed with [lines] and the closing [None]: its events,
    how many queue items it took, and whether it caught an exception. *)
Definition writer (env : Env) (outfile : str) (lines : list str)
  : list Event * Z * bool :=
  let all := (FileOpen outfile :: map FileWrite lines, len lines + 1, false) in
  match fault env with
  | NoFault => all
  | OpenFails => ([], 0, true)
  | WriteFails k =>
      if (k <? length lines)%nat
      then (FileOpen outfile :: map FileWrite (firstn k lines),
            Z.of_nat k + 1, true)
      else all
  end.

(** File sink.  [lines] are the lines put on the queue before [finally],
    [exc] the exception that ended the producer, if any, and [calls] the
    calls of [make_id] in the order of the loop (of submission, with a pool).
    The queue holds [QUEUE_MAXSIZE] items: when the writer has died after
    taking [taken] items, the put number [QUEUE_MAXSIZE + taken + 1] never
    returns.  The events of the writer thread are listed after the calls of
    the producer. *)
Definition file_sink (env : Env) (outfile : str) (sequential : bool)
    (calls : list Event) (lines : list str) (exc : option Error) : Run :=
  let '(written, taken, failed) := writer env outfile lines in
  if failed && (QUEUE_MAXSIZE + taken <? len lines + 1)
  then ((if sequential
         then firstn (Z.to_nat (QUEUE_MAXSIZE + taken + 1)) calls
         else calls) ++ written, Hang)
  else
    after (calls ++ written)
      match exc with
      | Some e => ([], Uncaught e)
      | None => if failed then fail DiagWriteError 4 else ([], Exit 0)
      end.

(** The calls of the sequential loop: it stops at the first exception. *)
Fixpoint calls_until_raise (prefix7 : str) (to18 : bool) (values : list Z)
  : list Event :=
  match values with
  | [] => []
  | v :: values' =>
      Called (CallMakeId prefix7 v to18) ::
      match compose prefix7 to18 v with
      | Raise _ => []
      | Ok _ => calls_until_raise prefix7 to18 values'
      end
  end.

Definition add_newline (sfid_out : str) : str := sfid_out ++ [newline].

(** Lines 309-375: what [main] does with the generated [values]. *)
Definition enumerate (env : Env) (args : Args.t) (prefix7 : str)
    (values : list Z) : Run :=
  let to18 := Args.to18 args in
  match values with
  | [] => fail DiagNoValues 3
  | _ =>
      if Args.displayonly args then
        if Args.threads args <=? 1 then print_each prefix7 to18 values
        else print_completed env prefix7 to18 values
      else
        let outfile :=
          match Args.outfile args with
          | Some (c :: p) => c :: p
          | _ => default_output_filename env
          end in
        let futs := map (compose prefix7 to18) values in
        if Args.threads args <=? 1 then
          let (ids, exc) := until_raise futs in
          file_sink env outfile true
            (calls_until_raise prefix7 to18 values)
            (map add_newline ids) exc
        else
          let (ids, exc) := until_raise (as_completed env futs) in
          file_sink env outfile false
            (map (fun v => Called (CallMakeId prefix7 v to18)) values)
            (map add_newline ids) exc
  end.

(** Lines 295-305: the start value of an enumeration mode. *)
Definition start_value_of (args : Args.t) (current_value : Z)
  : Diagnostic + Z :=
  match Args.mode args with
  | EnumFromValue =>
      match Args.start args with
      | None => inl DiagStartRequired
      | Some st =>
          if (st <? 0) || (st >? MAX_BASE62_8) then inl DiagStartRange
          else inr st
      end
  | _ => inr current_value
  end.

Definition main (env : Env) (args : Args.t) : Run :=
  match normalize_to_15 (Args.id args) with
  | Raise e => fail (DiagError e) 2
  | Ok id15 =>
  match ('(prefix7, counter8) <- split_id_components id15 ;;
         current_value <- base62_to_int counter8 ;;
         Ok (prefix7, current_value)) with
  | Raise e => fail (DiagError e) 2
  | Ok (prefix7, current_value) =>
  match Args.mode args with
  | Decode => ([Stdout (str_of_int current_value)], Exit 0)
  | _ =>
  match Args.seq args with
  | None => fail DiagSeqRequired 2
  | Some seq =>
  if seq =? 0 then fail DiagSeqRequired 2
  else
  match start_value_of args current_value with
  | inl d => fail d 2
  | inr start_value =>
      let values := gen_value_sequence start_value seq in
      after [Called (CallGen start_value seq)]
        (enumerate env args prefix7 values)
  end end end end end.

(** Projections of a trace. *)
Definition stdout_of (t : list Event) : list str :=
  flat_map (fun e => match e with Stdout l => [l] | _ => [] end) t.

Definition stderr_of (t : list Event) : list Diagnostic :=
  flat_map (fun e => match e with Stderr d => [d] | _ => [] end) t.

Definition opened_of (t : list Event) : list str :=
  flat_map (fun e => match e with FileOpen p => [p] | _ => [] end) t.

Definition written_of (t : list Event) : list str :=
  flat_map (fun e => match e with FileWrite d => [d] | _ => [] end) t.

Definition calls_of (t : list Event) : list Call :=
  flat_map (fun e => match e with Called c => [c] | _ => [] end) t.

(** ** Predicates used in the statements *)

(** The SalesforceId of the data model: exactly 15 or 18 characters, all of
    them in [0-9A-Za-z]. *)
Definition is_salesforce_id (s : str) : bool :=
  ((len s =? 15) || (len s =? 18)) && forallb ascii_alnum s.

(** Traces that hold calls only. *)
Definition only_calls (t : list Event) : Prop :=
  Forall (fun e => exists c, e = Called c) t.

(** Events other than a call of the generator. *)
Definition not_gen (e : Event) : Prop :=
  match e with
  | Called (CallGen _ _) => False
  | _ => True
  end.

(** The characters of the checksum table: [A-Z] and [0-5]. *)
Definition checksum_char (c : char) : bool :=
  between 65 90 c || between 48 53 c.

(** Values of the counter range. *)
Definition in_range (v : Z) : bool := (0 <=? v) && (v <=? MAX_BASE62_8).

(** The pool completes every submitted future exactly once: the completion
    order of [n] futures is a rearrangement of the positions [0 .. n-1]. *)
Definition fair_completion (env : Env) : Prop :=
  forall n, Permutation (completion_order env n) (List.seq 0 n).

(** Events that are no write to the console, and events that touch no file. *)
Definition no_stdout (e : Event) : Prop :=
  match e with Stdout _ => False | _ => True end.

Definition no_file (e : Event) : Prop :=
  match e with FileOpen _ | FileWrite _ => False | _ => True end.

(** The output file of an enumeration: [args.outfile or default]. *)
Definition outfile_of (env : Env) (args : Args.t) : str :=
  match Args.outfile args with
  | Some (c :: p) => c :: p
  | _ => default_output_filename env
  end.

(** ** Mode names *)

Context (L : UnicodeCase).

(** [s.lower()]. *)
Definition lower_char (c : char) : str :=
  if is_ascii c then [if between 65 90 c then (c + 32)%N else c]
  else unicode_lower L c.

Definition lower (s : str) : str := flat_map lower_char s.

Inductive ModeError :=
| ModeRequired      (* "Mode is required." *)
| InvalidMode.      (* "Invalid --mode. Use one of: ..." *)

Definition str_eqb (a b : str) : bool :=
  if list_eq_dec N.eq_dec a b then true else false.

(** [d[key]] for a dictionary written as the list of its items. *)
Fixpoint dict_get (d : list (str * str)) (key : str) : option str :=
  match d with
  | [] => None
  | (k, v) :: d' => if str_eqb k key then Some v else dict_get d' key
  end.

Definition aliases : list (str * str) :=
  [("decode", "decode");
   ("d", "decode");
   ("enum-from-value", "enum-from-value");
   ("efv", "enum-from-value");
   ("enum-from-current", "enum-from-current");
   ("efc", "enum-from-current")].

Definition normalize_mode (s : str) : ModeError + str :=
  match s with
  | [] => inl ModeRequired
  | _ =>
      let m := lower (strip s) in
      match dict_get aliases m with
      | None => inl InvalidMode
      | Some name => inr name
      end
  end.

(** How [main] reads the normalised name (lines 286, 295 and 303). *)
Definition mode_of_name (name : str) : Mode :=
  if str_eqb name "decode" then Decode
  else if str_eqb name "enum-from-value" then EnumFromValue
  else EnumFromCurrent.

(** ** Writing a list of IDs *)

(** [write_results_ids]: the events of the call, and whether an exception of
    the file system left it. *)
Definition write_results_ids (env : Env) (path : str) (ids_only : list str)
  : list Event * bool :=
  let write := fun sfid_out => FileWrite (sfid_out ++ [newline]) in
  let all := (FileOpen path :: map write ids_only, false) in
  match fault env with
  | NoFault => all
  | OpenFails => ([], true)
  | WriteFails k =>
      if (k <? length ids_only)%nat
      then (FileOpen path :: map write (firstn k ids_only), true)
      else all
  end.

(** The events of a trace that touch a file. *)
Definition file_events (t : list Event) : list Event :=
  filter (fun e => match e with FileOpen _ | FileWrite _ => true | _ => false end) t.

(** [s < t] on strings: the order of the code points, position by position;
    a proper prefix is smaller. *)
Fixpoint str_ltb (s t : str) : bool :=
  match s, t with
  | _, [] => false
  | [], _ :: _ => true
  | c :: s', d :: t' => (c <? d)%N || ((c =? d)%N && str_ltb s' t')
  end.

(** * Properties *)

(** ** Sample runs *)

Example int_to_base62_max : int_to_base62 MAX_BASE62_8 8 = Ok "zzzzzzzz".
Proof. vm_compute. reflexivity. Qed.

Example base62_to_int_sample : base62_to_int "000PHoN1" = Ok 373653603.
Proof. vm_compute. reflexivity. Qed.

Example gen_up : gen_value_sequence 5 3 = [5; 6; 7].
Proof. reflexivity. Qed.

Example gen_down_stops_at_zero : gen_value_sequence 1 (-4) = [1; 0].
Proof. reflexivity. Qed.

Example make_id_sample :
  make_id "001Vc00" 373653603 true
  = Ok ("001Vc00000PHoN1IAL", "000PHoN1", 373653603).
Proof. vm_compute. reflexivity. Qed.

Example main_decode :
  main env0 (args0 Decode None None false) = ([Stdout "373653603"], Exit 0).
Proof. vm_compute. reflexivity. Qed.

Example main_enum_console :
  main env0 (args0 EnumFromCurrent None (Some (-2)) true)
  = ([Called (CallGen 373653603 (-2));
      Called (CallMakeId "001Vc00" 373653603 false); Stdout "001Vc00000PHoN1";
      Called (CallMakeId "001Vc00" 373653602 false); Stdout "001Vc00000PHoN0"],
     Exit 0).
Proof. vm_compute. reflexivity. Qed.

Example main_enum_file :
  main env0 (args0 EnumFromValue (Some 61) (Some 2) false)
  = ([Called (CallGen 61 2);
      Called (CallMakeId "001Vc00" 61 false);
      Called (CallMakeId "001Vc00" 62 false);
      FileOpen "sfidenum-20240101-000000.txt";
      FileWrite (add_newline "001Vc000000000z");
      FileWrite (add_newline "001Vc0000000010")],
     Exit 0).
Proof. vm_compute. reflexivity. Qed.

(** ** Base62 *)

Lemma BASE_eq : BASE = 62.
Proof. reflexivity. Qed.

Lemma len_app {A} (a b : list A) : len (a ++ b) = len a + len b.
Proof. unfold len. rewrite length_app. lia. Qed.

Lemma len_nonneg {A} (a : list A) : 0 <= len a.
Proof. unfold len. lia. Qed.

(** Every remainder selects a digit, and [find] gives the remainder back. *)
Lemma alphabet_index r :
  0 <= r < BASE ->
  exists c, index ALPHABET r = Ok c /\ find ALPHABET c = r.
Proof.
  intros Hr.
  assert (Hall : forallb
            (fun i => match nth_error ALPHABET i with
                      | Some c => find ALPHABET c =? Z.of_nat i
                      | None => false
                      end) (List.seq 0 62) = true) by (vm_compute; reflexivity).
  rewrite forallb_forall in Hall.
  specialize (Hall (Z.to_nat r)).
  rewrite BASE_eq in Hr.
  assert (Hin : In (Z.to_nat r) (List.seq 0 62)) by (apply in_seq; lia).
  specialize (Hall Hin). unfold index.
  assert (Hneg : (r <? 0) = false) by (apply Z.ltb_ge; lia).
  cbv zeta. rewrite !Hneg.
  destruct (nth_error ALPHABET (Z.to_nat r)) as [c|]; [|discriminate].
  exists c. split; [reflexivity|]. apply Z.eqb_eq in Hall. lia.
Qed.

Lemma base62_fold_app a b n :
  base62_fold (a ++ b) n = (m <- base62_fold a n ;; base62_fold b m).
Proof.
  revert n. induction a as [|ch a IH]; intros n; simpl; [reflexivity|].
  destruct (find ALPHABET ch =? -1); [reflexivity|]. apply IH.
Qed.

Lemma base62_fold_zeros k n :
  base62_fold (repeat (chr "0") k) n = Ok (n * BASE ^ Z.of_nat k).
Proof.
  revert n. induction k as [|k IH]; intros n.
  - simpl. f_equal. lia.
  - cbn [repeat base62_fold].
    change (find ALPHABET (chr "0")) with 0. cbn [Z.eqb].
    rewrite IH. f_equal. rewrite Nat2Z.inj_succ, Z.pow_succ_r by lia. lia.
Qed.

(** The digit loop appends the digits of [n], least significant first:
    read backwards they decode to [n], and there are as many as [n] needs. *)
Lemma digits_loop_spec n chars :
  0 <= n ->
  exists ds,
    digits_loop n chars = Ok (chars ++ ds)
    /\ (forall m, base62_fold (rev ds) m = Ok (m * BASE ^ len ds + n))
    /\ n < BASE ^ len ds
    /\ (0 < n -> BASE ^ (len ds - 1) <= n)
    /\ (n = 0 -> ds = []).
Proof.
  funelim (digits_loop n chars); intros Hn.
  - (* n = 0: nothing is appended *)
    exists []. rewrite app_nil_r. assert (n = 0) by lia. subst.
    repeat split; try reflexivity; try lia.
    intros m. simpl. f_equal. unfold len. simpl. lia.
  - (* a digit is appended and the loop goes on with the quotient *)
    assert (Hfind : find ALPHABET c = n mod BASE).
    { destruct (alphabet_index (n mod BASE)) as (c' & Hc' & Hfind).
      - apply Z.mod_pos_bound. rewrite BASE_eq. lia.
      - congruence. }
    match goal with
    | IH : 0 <= n / BASE -> _ |- _ =>
        destruct IH as (ds & Hloop & Hdec & Hlt & Hge & Hz);
        [apply Z.div_pos; rewrite ?BASE_eq; lia|]
    end.
    exists (c :: ds). rewrite Hloop, <- app_assoc. split; [reflexivity|].
    assert (Hlen : len (c :: ds) = len ds + 1) by (unfold len; simpl; lia).
    pose proof (len_nonneg ds) as Hds.
    pose proof (Z.div_mod n BASE ltac:(rewrite BASE_eq; lia)) as Hdm.
    pose proof (Z.mod_pos_bound n BASE ltac:(rewrite BASE_eq; lia)) as Hmod.
    rewrite Hlen, Z.pow_add_r, Z.pow_1_r by lia.
    repeat split.
    + intros m. simpl rev. rewrite base62_fold_app, Hdec. simpl.
      rewrite Hfind.
      destruct (Z.eqb_spec (n mod BASE) (-1)); [lia|].
      f_equal. lia.
    + rewrite BASE_eq in *. nia.
    + intros _. replace (len ds + 1 - 1) with (len ds) by lia.
      destruct (Z.eq_dec (n / BASE) 0) as [E0|E0].
      * rewrite (Hz E0). change (len []) with 0. lia.
      * assert (Hq : 0 < n / BASE).
        { pose proof (Z.div_pos n BASE). rewrite BASE_eq in *. lia. }
        specialize (Hge Hq).
        assert (len ds <> 0).
        { intros E. rewrite E in Hlt. simpl in Hlt. lia. }
        replace (len ds) with (len ds - 1 + 1) by lia.
        rewrite Z.pow_add_r, Z.pow_1_r by lia.
        rewrite BASE_eq in *. nia.
    + lia.
  - (* the index cannot fail *)
    destruct (alphabet_index (n mod BASE)) as (c' & Hc' & _).
    { apply Z.mod_pos_bound. rewrite BASE_eq. lia. }
    congruence.
Qed.

(** Below [BASE ^ k] the digit count is at most [k]. *)
Lemma pow_bounds_len (n k l : Z) :
  0 <= l -> 0 <= k -> BASE ^ (l - 1) <= n -> n < BASE ^ k -> l <= k.
Proof.
  intros Hl Hk Hlo Hhi.
  destruct (Z_le_gt_dec l k) as [|Hgt]; [assumption|exfalso].
  assert (BASE ^ k <= BASE ^ (l - 1)).
  { apply Z.pow_le_mono_r; rewrite ?BASE_eq; lia. }
  lia.
Qed.

(** [int_to_base62] on a non-negative integer: it returns; the result
    decodes to [n]; its length is the larger of [min_len] and the natural
    digit count, and the natural digit count is at most [k] below
    [BASE ^ k]. *)
Lemma int_to_base62_spec n min_len :
  0 <= n ->
  exists s,
    int_to_base62 n min_len = Ok s
    /\ base62_to_int s = Ok n
    /\ exists d, int_to_base62 n 1 = Ok d
                 /\ len s = Z.max min_len (len d)
                 /\ (forall k, 0 < k -> n < BASE ^ k -> len d <= k).
Proof.
  intros Hn.
  assert (Hnat : exists d, int_to_base62 n 1 = Ok d
                   /\ (forall m, base62_fold d m = Ok (m * BASE ^ len d + n))
                   /\ 1 <= len d
                   /\ (forall k, 0 < k -> n < BASE ^ k -> len d <= k)
                   /\ forall ml, int_to_base62 n ml =
                        if len d <? ml
                        then Ok (repeat (chr "0") (Z.to_nat (ml - len d)) ++ d)
                        else Ok d).
  { unfold int_to_base62.
    destruct (Z.ltb_spec n 0); [lia|].
    destruct (Z.eqb_spec n 0) as [->|Hnz].
    - exists "0". cbn [bind]. change (len "0") with 1.
      split; [reflexivity|]. split; [intros m; cbn; f_equal; lia|].
      split; [lia|]. split; [intros; lia|reflexivity].
    - destruct (digits_loop_spec n [] H) as (ds & Hloop & Hdec & Hlt & Hge & _).
      rewrite Hloop. cbn [bind app].
      assert (Hlen : len (rev ds) = len ds) by (unfold len; now rewrite length_rev).
      assert (Hpos : 1 <= len ds).
      { destruct ds; [simpl in Hlt; lia|]. unfold len. simpl. lia. }
      exists (rev ds). rewrite Hlen.
      destruct (Z.ltb_spec (len ds) 1); [lia|].
      split; [reflexivity|]. split; [exact Hdec|]. split; [exact Hpos|].
      split; [|reflexivity].
      intros k Hk Hb. apply (pow_bounds_len n); try lia. }
  destruct Hnat as (d & Hd & Hdec & Hpos & Hbound & Hpad).
  rewrite Hpad.
  destruct (Z.ltb_spec (len d) min_len).
  - eexists. split; [reflexivity|]. split.
    + unfold base62_to_int. rewrite base62_fold_app, base62_fold_zeros.
      cbn [bind]. rewrite Hdec. f_equal; lia.
    + exists d. repeat split; try assumption.
      rewrite len_app. unfold len at 1. rewrite repeat_length. lia.
  - exists d. split; [reflexivity|]. split.
    + unfold base62_to_int. rewrite Hdec. f_equal; lia.
    + exists d. repeat split; try assumption. lia.
Qed.

(** C1. Round trip: for every n in [0, 62^8 - 1], [int_to_base62 n 8] is a
    string of exactly 8 characters that [base62_to_int] decodes to n; and for
    every k at least the natural digit count of a non-negative n (the length
    of [int_to_base62 n 1]), [int_to_base62 n k] has k characters and decodes
    to n. *)
Theorem C1_base62_round_trip (n : Z) (Hn : 0 <= n) :
  (n <= MAX_BASE62_8 ->
   exists s, int_to_base62 n 8 = Ok s /\ len s = 8 /\ base62_to_int s = Ok n)
  /\ (forall k d,
        int_to_base62 n 1 = Ok d -> len d <= k ->
        exists s, int_to_base62 n k = Ok s /\ len s = k
                  /\ base62_to_int s = Ok n).
Proof.
  split.
  - intros Hmax.
    destruct (int_to_base62_spec n 8 Hn) as (s & Hs & Hdec & d & _ & Hlen & Hb).
    exists s. repeat split; try assumption.
    specialize (Hb 8 ltac:(lia)).
    assert (n < BASE ^ 8) by (unfold MAX_BASE62_8 in Hmax; lia). lia.
  - intros k d Hd Hk.
    destruct (int_to_base62_spec n k Hn) as (s & Hs & Hdec & d' & Hd' & Hlen & _).
    exists s. repeat split; try assumption.
    rewrite Hd in Hd'. injection Hd' as <-. lia.
Qed.

(** ** Checksum *)

(** C2. Known vector: the checksum of ["001Vc00000PHoN1"] is ["IAL"]: the
    reversed segments ["cV100"], ["00000"], ["1NoHP"] have the upper-case
    patterns 01000, 00000, 01011, that is the positions 8, 0 and 11 of the
    table A-Z0-5. *)
Theorem C2_id15_to_18_known_vector :
  id15_to_18 "001Vc00000PHoN1" = Ok "001Vc00000PHoN1IAL"
  /\ map (@rev char) (map (fun i => slice "001Vc00000PHoN1" i (i + 5)) [0; 5; 10]%nat)
     = ["cV100"; "00000"; "1NoHP"]
  /\ for_each suffix_char ["cV100"; "00000"; "1NoHP"] = Ok "IAL"
  /\ (index _MAPPING 8, index _MAPPING 0, index _MAPPING 11)
     = (Ok (chr "I"), Ok (chr "A"), Ok (chr "L"))
  /\ len _MAPPING = 32.
Proof.
  repeat (split; [vm_compute; reflexivity|]). vm_compute. reflexivity.
Qed.

(** A segment of five characters always selects a table entry. *)
Lemma suffix_char_total seg :
  length seg = 5%nat -> exists c, suffix_char seg = Ok c.
Proof.
  destruct seg as [|c1 [|c2 [|c3 [|c4 [|c5 [|c6 seg]]]]]]; try discriminate.
  intros _. unfold suffix_char. cbn [map].
  destruct (isupper c1), (isupper c2), (isupper c3), (isupper c4),
    (isupper c5); eexists; vm_compute; reflexivity.
Qed.

Lemma slice_length s i j :
  (j <= length s)%nat -> length (slice s i j) = (j - i)%nat.
Proof.
  intros H. unfold slice. rewrite length_firstn, length_skipn. lia.
Qed.

(** On 15 characters the checksum never fails and appends 3 characters. *)
Lemma id15_to_18_total id15 :
  len id15 = 15 ->
  exists suffix, len suffix = 3 /\ id15_to_18 id15 = Ok (id15 ++ suffix).
Proof.
  intros Hlen. unfold id15_to_18. rewrite Hlen. cbn [Z.eqb negb Pos.eqb].
  assert (Hl : length id15 = 15%nat) by (unfold len in Hlen; lia).
  cbn [map for_each].
  destruct (suffix_char_total (rev (slice id15 0 (0 + 5)))) as (a & ->).
  { rewrite length_rev, slice_length; lia. }
  destruct (suffix_char_total (rev (slice id15 5 (5 + 5)))) as (b & ->).
  { rewrite length_rev, slice_length; lia. }
  destruct (suffix_char_total (rev (slice id15 10 (10 + 5)))) as (c & ->).
  { rewrite length_rev, slice_length; lia. }
  exists [a; b; c]. split; reflexivity.
Qed.

(** ** Value sequence *)

Lemma gen_loop_spec remaining current step :
  exists n : nat,
    (n <= remaining)%nat
    /\ gen_loop remaining current step
       = map (fun i => current + step * Z.of_nat i) (List.seq 0 n)
    /\ (forall i, (i < n)%nat ->
                  0 <= current + step * Z.of_nat i <= MAX_BASE62_8)
    /\ ((n < remaining)%nat ->
        ~ (0 <= current + step * Z.of_nat n <= MAX_BASE62_8)).
Proof.
  revert current. induction remaining as [|r IH]; intros current.
  - exists 0%nat. split; [lia|]. split; [reflexivity|]. split; intros; lia.
  - cbn [gen_loop].
    destruct (Z.leb_spec 0 current), (Z.leb_spec current MAX_BASE62_8);
      cbn [andb].
    2-4: exists 0%nat; (split; [lia|]); (split; [reflexivity|]);
      split; intros; rewrite ?Z.mul_0_r, ?Z.add_0_r; lia.
    destruct (IH (current + step)) as (n & Hn & Heq & Hin & Hout).
    exists (S n). split; [lia|]. split; [|split].
    + rewrite Heq. cbn [List.seq map]. f_equal; [f_equal; lia|].
      rewrite <- seq_shift, map_map. apply map_ext. intros i. lia.
    + intros [|i] Hi.
      * lia.
      * specialize (Hin i ltac:(lia)). lia.
    + intros Hlt Hr. apply Hout; [lia|]. lia.
Qed.

(** C3. The generator: nothing for [seq = 0]; otherwise the values
    [start_value + step * i] for [i < n], where [step] is +1 for a positive
    [seq] and -1 for a negative one, [n <= |seq|], every yielded value lies
    in [0, 62^8 - 1], and if fewer than [|seq|] values are yielded the next
    one would lie outside the range.  Near the upper bound
    [gen_value_sequence (62^8 - 2) 5] is [[62^8 - 2; 62^8 - 1]], and
    [gen_value_sequence 100 (-10)] is the ten values from 100 down to 91. *)
Theorem C3_gen_value_sequence (start_value seq : Z) :
  (seq = 0 -> gen_value_sequence start_value seq = [])
  /\ (seq <> 0 ->
      let step := if seq >? 0 then 1 else -1 in
      exists n : nat,
        Z.of_nat n <= Z.abs seq
        /\ gen_value_sequence start_value seq
           = map (fun i => start_value + step * Z.of_nat i) (List.seq 0 n)
        /\ (forall i, (i < n)%nat ->
                      0 <= start_value + step * Z.of_nat i <= MAX_BASE62_8)
        /\ (Z.of_nat n < Z.abs seq ->
            ~ (0 <= start_value + step * Z.of_nat n <= MAX_BASE62_8)))
  /\ gen_value_sequence (62 ^ 8 - 2) 5 = [62 ^ 8 - 2; 62 ^ 8 - 1]
  /\ gen_value_sequence 100 (-10) = [100; 99; 98; 97; 96; 95; 94; 93; 92; 91].
Proof.
  split; [|split; [|split; vm_compute; reflexivity]].
  - intros ->. reflexivity.
  - intros Hseq step. unfold gen_value_sequence.
    destruct (Z.eqb_spec seq 0) as [|_]; [contradiction|].
    destruct (gen_loop_spec (Z.to_nat (Z.abs seq)) start_value step)
      as (n & Hn & Heq & Hin & Hout).
    exists n. split; [lia|]. split; [exact Heq|]. split; [exact Hin|].
    intros Hlt. apply Hout. lia.
Qed.

(** ** Composer *)

Lemma MAX_BASE62_8_eq : MAX_BASE62_8 = 218340105584895.
Proof. reflexivity. Qed.

Lemma clamp_record_value_range v :
  0 <= clamp_record_value v <= MAX_BASE62_8.
Proof. unfold clamp_record_value. rewrite MAX_BASE62_8_eq. lia. Qed.

(** Eight digits exactly for a value of the counter range. *)
Lemma int_to_base62_8 v :
  0 <= v <= MAX_BASE62_8 ->
  exists b62, int_to_base62 v 8 = Ok b62 /\ len b62 = 8
              /\ base62_to_int b62 = Ok v.
Proof.
  intros [Hlo Hhi].
  destruct (int_to_base62_spec v 8 Hlo) as (s & Hs & Hdec & d & _ & Hlen & Hb).
  exists s. repeat split; try assumption.
  specialize (Hb 8 ltac:(lia)).
  assert (v < BASE ^ 8) by (unfold MAX_BASE62_8 in Hhi; lia). lia.
Qed.

(** With a prefix of 7 characters [make_id] returns, for every integer. *)
Lemma make_id_total prefix7 value to18 :
  len prefix7 = 7 ->
  exists b62 suffix,
    int_to_base62 (clamp_record_value value) 8 = Ok b62
    /\ len b62 = 8 /\ len suffix = 3
    /\ id15_to_18 (prefix7 ++ b62) = Ok ((prefix7 ++ b62) ++ suffix)
    /\ make_id prefix7 value to18
       = Ok (if to18 then (prefix7 ++ b62) ++ suffix else prefix7 ++ b62,
             b62, clamp_record_value value).
Proof.
  intros Hp.
  destruct (int_to_base62_8 _ (clamp_record_value_range value))
    as (b62 & Hb & Hlen & _).
  destruct (id15_to_18_total (prefix7 ++ b62)) as (suffix & Hs & H18).
  { rewrite len_app. lia. }
  exists b62, suffix. repeat (split; [assumption|]).
  unfold make_id. rewrite Hb. cbn [bind].
  destruct to18; [rewrite H18|]; reflexivity.
Qed.

(** C5. For every integer [value] and every prefix of 7 characters,
    [make_id] returns: the value is clamped into [0, 62^8 - 1] (unchanged
    inside the range, 0 below it, 62^8 - 1 above it), the counter string is
    the 8-character encoding of the clamped value, and the ID is the prefix
    followed by the counter, followed by the 3 checksum characters exactly
    when [to18] is set. *)
Theorem C5_make_id_clamps (prefix7 : str) (value : Z) (to18 : bool)
    (Hprefix : len prefix7 = 7) :
  let v := clamp_record_value value in
  0 <= v <= MAX_BASE62_8
  /\ (0 <= value <= MAX_BASE62_8 -> v = value)
  /\ (value < 0 -> v = 0)
  /\ (MAX_BASE62_8 < value -> v = MAX_BASE62_8)
  /\ exists b62 suffix,
       int_to_base62 v 8 = Ok b62 /\ len b62 = 8
       /\ len suffix = 3
       /\ id15_to_18 (prefix7 ++ b62) = Ok ((prefix7 ++ b62) ++ suffix)
       /\ make_id prefix7 value to18
          = Ok (if to18 then (prefix7 ++ b62) ++ suffix else prefix7 ++ b62,
                b62, v).
Proof.
  intros v. split; [apply clamp_record_value_range|].
  subst v. unfold clamp_record_value. rewrite MAX_BASE62_8_eq.
  repeat (split; [lia|]).
  rewrite <- MAX_BASE62_8_eq. apply make_id_total. assumption.
Qed.

Example make_id_above_range :
  make_id "001Vc00" (62 ^ 8 + 10) false
  = Ok ("001Vc00zzzzzzzz", "zzzzzzzz", MAX_BASE62_8).
Proof. vm_compute. reflexivity. Qed.

(** ** Characters *)

(** A property decided on the 128 ASCII characters holds of each of them. *)
Lemma ascii_all (P : char -> bool) :
  forallb P (map N.of_nat (List.seq 0 128)) = true ->
  forall c, is_ascii c = true -> P c = true.
Proof.
  intros H c Hc. rewrite forallb_forall in H. apply H.
  rewrite <- (N2Nat.id c). apply in_map. apply in_seq.
  unfold is_ascii in Hc. apply N.ltb_lt in Hc. lia.
Qed.

Lemma ascii_alnum_is_ascii c : ascii_alnum c = true -> is_ascii c = true.
Proof.
  unfold ascii_alnum, between, is_ascii. intros H.
  rewrite !orb_true_iff, !andb_true_iff, !N.leb_le in H.
  apply N.ltb_lt. lia.
Qed.

Lemma ascii_alnum_not_space c : ascii_alnum c = true -> isspace c = false.
Proof.
  intros Hc. pose proof (ascii_alnum_is_ascii c Hc) as Ha.
  pose proof (ascii_all
    (fun c => implb (ascii_alnum c) (negb (between 9 13 c || between 28 32 c)))
    eq_refl c Ha) as H; cbv beta in H.
  unfold isspace. rewrite Ha. rewrite Hc in H. simpl in H.
  now apply negb_true_iff.
Qed.

Lemma isalnum_char_ascii c :
  is_ascii c = true -> isalnum_char c = ascii_alnum c.
Proof. intros H. unfold isalnum_char. now rewrite H. Qed.

Lemma ascii_alnum_isalnum_char c : ascii_alnum c = true -> isalnum_char c = true.
Proof.
  intros H. rewrite isalnum_char_ascii; [exact H|].
  now apply ascii_alnum_is_ascii.
Qed.

(** [find] answers [-1] for a character that does not occur, and the
    position of an occurrence otherwise. *)
Lemma find_from_spec l c i :
  (find_from l c i = -1 /\ ~ In c l /\ True) \/ 
  (i <= find_from l c i < i + len l /\ In c l) \/ i < 0.
Proof.
  revert i. induction l as [|a l IH]; intros i.
  - left. simpl. tauto.
  - destruct (Z_lt_dec i 0) as [|Hi]; [right; right; assumption|].
    cbn [find_from]. destruct (N.eqb_spec a c) as [->|Hne].
    + right. left. split; [|left; reflexivity].
      unfold len. cbn [length]. lia.
    + destruct (IH (i + 1)) as [(E & Hnin & _)|[(Hr & Hin)|]]; [| |lia].
      * left. split; [exact E|]. split; [|exact I].
        intros [|]; [congruence|contradiction].
      * right. left. split; [|right; exact Hin].
        unfold len in *. cbn [length]. lia.
Qed.

Lemma find_alphabet_range c :
  find ALPHABET c = -1 \/ 0 <= find ALPHABET c < BASE.
Proof.
  unfold find. destruct (find_from_spec ALPHABET c 0) as [(E & _)|[(Hr & _)|]];
    [left; exact E | right; exact Hr | lia].
Qed.

(** The alphabet is exactly [0-9A-Za-z]. *)
Lemma find_alphabet_alnum c :
  ascii_alnum c = negb (find ALPHABET c =? -1).
Proof.
  destruct (is_ascii c) eqn:Ha.
  - pose proof (ascii_all
      (fun c => Bool.eqb (ascii_alnum c) (negb (find ALPHABET c =? -1)))
      eq_refl c Ha) as H; cbv beta in H.
    now apply eqb_prop.
  - assert (Hn : ascii_alnum c = false).
    { destruct (ascii_alnum c) eqn:E; [|reflexivity].
      apply ascii_alnum_is_ascii in E. congruence. }
    rewrite Hn. unfold find.
    destruct (find_from_spec ALPHABET c 0) as [(E & _)|[(_ & Hin)|]];
      [now rewrite E | | lia].
    assert (Hall : forallb is_ascii ALPHABET = true) by reflexivity.
    rewrite forallb_forall in Hall. apply Hall in Hin. congruence.
Qed.

(** ** Stripping *)

Lemma forallb_firstn {A} (p : A -> bool) n l :
  forallb p l = true -> forallb p (firstn n l) = true.
Proof.
  revert n. induction l as [|a l IH]; intros [|n] H; simpl in *; try reflexivity.
  apply andb_true_iff in H as [Ha Hl]. rewrite Ha. now apply IH.
Qed.

Lemma forallb_skipn {A} (p : A -> bool) n l :
  forallb p l = true -> forallb p (skipn n l) = true.
Proof.
  revert n. induction l as [|a l IH]; intros [|n] H; simpl in *; try easy.
  apply andb_true_iff in H as [Ha Hl]. now apply IH.
Qed.

Lemma forallb_rev {A} (p : A -> bool) l :
  forallb p (rev l) = forallb p l.
Proof.
  induction l as [|a l IH]; [reflexivity|].
  simpl. rewrite forallb_app, IH. simpl. rewrite andb_true_r. apply andb_comm.
Qed.

Lemma forallb_lstrip p s : forallb p s = true -> forallb p (lstrip s) = true.
Proof.
  induction s as [|c s IH]; intros H; [reflexivity|]. simpl.
  destruct (isspace c); [|exact H].
  simpl in H. apply andb_true_iff in H as [_ H]. now apply IH.
Qed.

Lemma forallb_strip p s : forallb p s = true -> forallb p (strip s) = true.
Proof.
  intros H. unfold strip, rstrip.
  rewrite forallb_rev. apply forallb_lstrip.
  rewrite forallb_rev. now apply forallb_lstrip.
Qed.

Lemma lstrip_no_space s :
  forallb (fun c => negb (isspace c)) s = true -> lstrip s = s.
Proof.
  destruct s as [|c s]; [reflexivity|]. simpl. intros H.
  apply andb_true_iff in H as [H _]. apply negb_true_iff in H. now rewrite H.
Qed.

(** Stripping leaves a string of [0-9A-Za-z] as it is. *)
Lemma strip_alnum s : forallb ascii_alnum s = true -> strip s = s.
Proof.
  intros H.
  assert (Hs : forallb (fun c => negb (isspace c)) s = true).
  { rewrite forallb_forall in *. intros c Hc.
    apply negb_true_iff, ascii_alnum_not_space. now apply H. }
  unfold strip, rstrip. rewrite (lstrip_no_space s Hs).
  rewrite lstrip_no_space by now rewrite forallb_rev.
  apply rev_involutive.
Qed.

Lemma forallb_isalnum_char_ascii s :
  forallb is_ascii s = true ->
  forallb isalnum_char s = forallb ascii_alnum s.
Proof.
  induction s as [|a l IH]; intros H; [reflexivity|].
  simpl in *. apply andb_true_iff in H as [Ha Hl].
  rewrite (isalnum_char_ascii a Ha). f_equal. now apply IH.
Qed.

(** On ASCII characters [str.isalnum] tests for [0-9A-Za-z]. *)
Lemma isalnum_ascii s :
  forallb is_ascii s = true -> s <> [] ->
  isalnum s = forallb ascii_alnum s.
Proof.
  intros H Hne. destruct s as [|c s]; [contradiction|].
  unfold isalnum. now apply forallb_isalnum_char_ascii.
Qed.

(** ** Decoding *)

Lemma base62_fold_alnum s m :
  forallb ascii_alnum s = true -> exists n, base62_fold s m = Ok n.
Proof.
  revert m. induction s as [|c s IH]; intros m H; simpl.
  - now exists m.
  - simpl in H. apply andb_true_iff in H as [Hc Hs].
    rewrite find_alphabet_alnum in Hc. apply negb_true_iff in Hc.
    rewrite Hc. now apply IH.
Qed.

Lemma base62_fold_range s m n :
  base62_fold s m = Ok n -> 0 <= m ->
  m * BASE ^ len s <= n < (m + 1) * BASE ^ len s.
Proof.
  revert m. induction s as [|c s IH]; intros m H Hm.
  - simpl in H. injection H as <-. change (len []) with 0. lia.
  - simpl in H.
    destruct (find_alphabet_range c) as [E|Hr].
    { rewrite E in H. discriminate. }
    destruct (Z.eqb_spec (find ALPHABET c) (-1)); [lia|].
    apply IH in H; [|rewrite BASE_eq in *; lia].
    assert (Hlen : len (c :: s) = len s + 1) by (unfold len; simpl; lia).
    pose proof (len_nonneg s).
    rewrite Hlen, Z.pow_add_r, Z.pow_1_r by lia.
    assert (0 < BASE ^ len s) by (apply Z.pow_pos_nonneg; rewrite ?BASE_eq; lia).
    rewrite BASE_eq in *. nia.
Qed.

(** An 8-character counter decodes into the counter range. *)
Lemma base62_to_int_8 s n :
  len s = 8 -> base62_to_int s = Ok n -> 0 <= n <= MAX_BASE62_8.
Proof.
  intros Hlen H. apply base62_fold_range in H; [|lia].
  rewrite Hlen in H. unfold MAX_BASE62_8. lia.
Qed.

(** ** Normalisation *)

Lemma normalize_to_15_cases s :
  normalize_to_15 s =
  match s with
  | [] => Raise EmptyId
  | _ =>
      let t := strip s in
      if (len t =? 18) || (len t =? 15) then
        if isalnum (firstn 15 t) then Ok (firstn 15 t)
        else Raise NotAlphanumeric
      else Raise BadIdLength
  end.
Proof.
  destruct s as [|c s]; [reflexivity|].
  unfold normalize_to_15. cbv zeta. set (t := strip (c :: s)).
  destruct (Z.eqb_spec (len t) 18) as [E|E]; cbn [orb bind].
  - unfold slice. cbn [skipn Nat.sub]. change (15 - 0)%nat with 15%nat.
    now destruct (isalnum (firstn 15 t)).
  - destruct (Z.eqb_spec (len t) 15) as [E'|E']; cbn [bind]; [|reflexivity].
    rewrite firstn_all2 by (unfold len in E'; lia).
    now destruct (isalnum t).
Qed.

(** On ASCII input: acceptance is decided by the stripped string. *)
Lemma normalize_to_15_ascii s :
  forallb is_ascii s = true ->
  normalize_to_15 s =
  if (len (strip s) =? 18) || (len (strip s) =? 15) then
    if forallb ascii_alnum (firstn 15 (strip s))
    then Ok (firstn 15 (strip s)) else Raise NotAlphanumeric
  else match s with [] => Raise EmptyId | _ => Raise BadIdLength end.
Proof.
  intros Hascii. rewrite normalize_to_15_cases.
  destruct s as [|c s]; [reflexivity|]. cbv zeta.
  set (t := strip (c :: s)).
  destruct ((len t =? 18) || (len t =? 15)) eqn:Hlen; [|reflexivity].
  rewrite isalnum_ascii; [reflexivity | |].
  - apply forallb_firstn. now apply forallb_strip.
  - intros E. apply (f_equal (@length char)) in E.
    rewrite length_firstn in E. cbn [length] in E.
    apply orb_true_iff in Hlen. rewrite !Z.eqb_eq in Hlen.
    unfold len in Hlen. lia.
Qed.



Lemma isalnum_of_ascii_alnum s :
  forallb ascii_alnum s = true -> s <> [] -> isalnum s = true.
Proof.
  intros H Hne. destruct s as [|c s]; [contradiction|].
  unfold isalnum. rewrite forallb_forall in *. intros x Hx.
  apply ascii_alnum_isalnum_char. now apply H.
Qed.

Lemma is_salesforce_id_inv s :
  is_salesforce_id s = true ->
  (length s = 15 \/ length s = 18)%nat /\ forallb ascii_alnum s = true.
Proof.
  unfold is_salesforce_id. intros H. apply andb_true_iff in H as [Hl Ha].
  apply orb_true_iff in Hl. rewrite !Z.eqb_eq in Hl. unfold len in Hl.
  split; [lia|assumption].
Qed.

(** A SalesforceId is accepted, and normalised to its first 15 characters. *)
Lemma normalize_to_15_valid s :
  is_salesforce_id s = true ->
  normalize_to_15 s = Ok (firstn 15 s)
  /\ len (firstn 15 s) = 15
  /\ forallb ascii_alnum (firstn 15 s) = true.
Proof.
  intros H. apply is_salesforce_id_inv in H as [Hl Ha].
  assert (Hlen : length (firstn 15 s) = 15%nat) by (rewrite length_firstn; lia).
  split; [|split; [unfold len; lia | now apply forallb_firstn]].
  rewrite normalize_to_15_cases.
  destruct s as [|c s]; [simpl in Hl; lia|].
  cbv zeta. rewrite (strip_alnum _ Ha).
  replace ((len (c :: s) =? 18) || (len (c :: s) =? 15)) with true.
  - rewrite isalnum_of_ascii_alnum; [reflexivity| |].
    + now apply forallb_firstn.
    + intros E. rewrite E in Hlen. discriminate.
  - symmetry. apply orb_true_iff. rewrite !Z.eqb_eq. unfold len. lia.
Qed.

(** The part of [main] up to the mode test, for an accepted identifier of
    15 characters. *)
Lemma split_and_decode id15 :
  len id15 = 15 ->
  split_id_components id15 = Ok (firstn 7 id15, skipn 7 id15)
  /\ len (firstn 7 id15) = 7 /\ len (skipn 7 id15) = 8.
Proof.
  intros H. unfold split_id_components. rewrite H. cbn [Z.eqb Pos.eqb negb].
  unfold len in *. rewrite length_firstn, length_skipn. repeat split; lia.
Qed.

(** For a SalesforceId the validation of [main] succeeds: the run is what
    follows the decoding of the counter. *)
Lemma main_valid_id env args :
  is_salesforce_id (Args.id args) = true ->
  exists n,
    normalize_to_15 (Args.id args) = Ok (firstn 15 (Args.id args))
    /\ base62_to_int (skipn 7 (firstn 15 (Args.id args))) = Ok n
    /\ 0 <= n <= MAX_BASE62_8
    /\ main env args =
       match Args.mode args with
       | Decode => ([Stdout (str_of_int n)], Exit 0)
       | _ =>
           match Args.seq args with
           | None => fail DiagSeqRequired 2
           | Some seq =>
               if seq =? 0 then fail DiagSeqRequired 2
               else
                 match start_value_of args n with
                 | inl d => fail d 2
                 | inr start_value =>
                     after [Called (CallGen start_value seq)]
                       (enumerate env args
                          (firstn 7 (firstn 15 (Args.id args)))
                          (gen_value_sequence start_value seq))
                 end
           end
       end.
Proof.
  intros Hvalid.
  destruct (normalize_to_15_valid _ Hvalid) as (Hnorm & Hlen & Halnum).
  destruct (split_and_decode _ Hlen) as (Hsplit & H7 & H8).
  destruct (base62_fold_alnum (skipn 7 (firstn 15 (Args.id args))) 0)
    as [n Hn]; [now apply forallb_skipn|].
  exists n. split; [exact Hnorm|]. split; [exact Hn|].
  split; [apply (base62_to_int_8 _ _ H8 Hn)|].
  unfold main. rewrite Hnorm, Hsplit. cbn [bind].
  unfold base62_to_int. rewrite Hn. reflexivity.
Qed.


Lemma normalize_to_15_len s core :
  normalize_to_15 s = Ok core -> len core = 15.
Proof.
  rewrite normalize_to_15_cases. destruct s as [|c s]; [discriminate|].
  cbv zeta. set (t := strip (c :: s)).
  destruct ((len t =? 18) || (len t =? 15)) eqn:Hl; [|discriminate].
  destruct (isalnum (firstn 15 t)); [|discriminate].
  intros H. assert (E : core = firstn 15 t) by congruence. rewrite E.
  apply orb_true_iff in Hl. rewrite !Z.eqb_eq in Hl.
  unfold len in *. rewrite length_firstn. lia.
Qed.

(** The path of [main] into the enumeration. *)
Lemma main_enumerates env args id15 current_value sq start_value :
  normalize_to_15 (Args.id args) = Ok id15 ->
  base62_to_int (skipn 7 id15) = Ok current_value ->
  Args.mode args <> Decode ->
  Args.seq args = Some sq -> sq <> 0 ->
  start_value_of args current_value = inr start_value ->
  main env args
  = after [Called (CallGen start_value sq)]
      (enumerate env args (firstn 7 id15)
         (gen_value_sequence start_value sq)).
Proof.
  intros Hid Hcur Hmode Hseq Hnz Hstart. unfold main.
  rewrite Hid.
  destruct (split_and_decode id15 (normalize_to_15_len _ _ Hid)) as (-> & _).
  cbn [bind]. rewrite Hcur. cbn [bind]. rewrite Hseq.
  destruct (Z.eqb_spec sq 0) as [|_]; [contradiction|].
  rewrite Hstart.
  destruct (Args.mode args); [contradiction| |]; reflexivity.
Qed.

(** Every run of [main] is a validation failure with status 2, a decode, or
    an enumeration from a start value of the counter range with a non-zero
    [seq]. *)
Lemma main_cases env args :
  (exists d, main env args = ([Stderr d], Exit 2))
  \/ (exists n, main env args = ([Stdout (str_of_int n)], Exit 0))
  \/ (exists id15 current_value sq start_value,
        normalize_to_15 (Args.id args) = Ok id15
        /\ base62_to_int (skipn 7 id15) = Ok current_value
        /\ Args.mode args <> Decode
        /\ Args.seq args = Some sq /\ sq <> 0
        /\ start_value_of args current_value = inr start_value
        /\ 0 <= start_value <= MAX_BASE62_8).
Proof.
  unfold main.
  destruct (normalize_to_15 (Args.id args)) as [id15|e] eqn:Hid;
    [|left; eexists; reflexivity].
  pose proof (normalize_to_15_len _ _ Hid) as Hlen.
  destruct (split_and_decode id15 Hlen) as (Hsplit & _ & H8).
  rewrite Hsplit. cbn [bind].
  destruct (base62_to_int (skipn 7 id15)) as [cur|e] eqn:Hcur; cbn [bind];
    [|left; eexists; reflexivity].
  pose proof (base62_to_int_8 _ _ H8 Hcur) as Hrange.
  destruct (Args.mode args) eqn:Hmode;
    [right; left; eexists; reflexivity | |];
    (destruct (Args.seq args) as [sq|] eqn:Hseq;
       [|left; eexists; reflexivity];
     destruct (Z.eqb_spec sq 0) as [|Hnz]; [left; eexists; reflexivity|];
     destruct (start_value_of args cur) as [d|sv] eqn:Hstart;
       [left; eexists; reflexivity|];
     right; right; exists id15, cur, sq, sv;
     repeat (split; [first [assumption | discriminate | reflexivity]|])).
  - unfold start_value_of in Hstart. rewrite Hmode in Hstart.
    destruct (Args.start args) as [st|]; [|discriminate].
    destruct (Z.ltb_spec st 0); [discriminate|].
    destruct (Z.gtb_spec st MAX_BASE62_8); [discriminate|].
    injection Hstart as <-. lia.
  - unfold start_value_of in Hstart. rewrite Hmode in Hstart.
    injection Hstart as <-. exact Hrange.
Qed.

(** C9. An enum-from-value invocation whose [start] lies outside
    [0, 62^8 - 1] ends with exit status 2; its whole trace is one diagnostic
    on the error stream: no value is generated, no ID composed, nothing is
    printed or written.  When the identifier and [seq] are in order the
    diagnostic is the one about the range of [--start]. *)
Theorem C9_start_out_of_range (env : Env) (args : Args.t) (st : Z)
    (Hmode : Args.mode args = EnumFromValue)
    (Hstart : Args.start args = Some st)
    (Hout : st < 0 \/ MAX_BASE62_8 < st) :
  (exists d, main env args = ([Stderr d], Exit 2))
  /\ (forall sq, is_salesforce_id (Args.id args) = true ->
                 Args.seq args = Some sq -> sq <> 0 ->
                 main env args = ([Stderr DiagStartRange], Exit 2)).
Proof.
  assert (Hsv : forall cur, start_value_of args cur = inl DiagStartRange).
  { intros cur. unfold start_value_of. rewrite Hmode, Hstart.
    destruct (Z.ltb_spec st 0); [reflexivity|].
    destruct (Z.gtb_spec st MAX_BASE62_8); [reflexivity|lia]. }
  split.
  - destruct (main_cases env args) as [H|[[n H]|H]]; [exact H| |].
    + exfalso. revert H. unfold main.
      destruct (normalize_to_15 (Args.id args)); [|discriminate].
      match goal with |- context [match ?r with Ok _ => _ | Raise _ => _ end] =>
        destruct r as [[p cur]|]; [|discriminate] end.
      rewrite Hmode. destruct (Args.seq args) as [sq|]; [|discriminate].
      destruct (sq =? 0); [discriminate|]. rewrite Hsv. discriminate.
    + destruct H as (id15 & cur & sq & sv & _ & _ & _ & _ & _ & H & _).
      rewrite Hsv in H. discriminate.
  - intros sq Hvalid Hseq Hnz.
    destruct (main_valid_id env args Hvalid) as (n & _ & _ & _ & ->).
    rewrite Hmode, Hseq.
    destruct (Z.eqb_spec sq 0) as [|_]; [contradiction|].
    rewrite Hsv. reflexivity.
Qed.

(** *** Traces *)

Lemma only_calls_silent t :
  only_calls t ->
  stdout_of t = [] /\ stderr_of t = [] /\ opened_of t = [] /\ written_of t = [].
Proof.
  induction 1 as [|e t [c ->] _ IH]; [repeat split|]. exact IH.
Qed.

Lemma only_calls_firstn n t : only_calls t -> only_calls (firstn n t).
Proof.
  unfold only_calls. intros H. rewrite <- (firstn_skipn n t) in H.
  now apply Forall_app in H.
Qed.

Lemma only_calls_until_raise prefix7 to18 values :
  only_calls (calls_until_raise prefix7 to18 values).
Proof.
  induction values as [|v values IH]; [constructor|].
  simpl. constructor; [eexists; reflexivity|].
  destruct (compose prefix7 to18 v); [exact IH|constructor].
Qed.

Lemma written_of_file_writes lines : written_of (map FileWrite lines) = lines.
Proof. induction lines as [|l lines IH]; [reflexivity|]. simpl. now f_equal. Qed.

Lemma file_writes_silent lines :
  stdout_of (map FileWrite lines) = [] /\ stderr_of (map FileWrite lines) = []
  /\ opened_of (map FileWrite lines) = [].
Proof. induction lines as [|l lines IH]; [repeat split|]. exact IH. Qed.

Lemma stdout_of_app a b : stdout_of (a ++ b) = stdout_of a ++ stdout_of b.
Proof. apply flat_map_app. Qed.

Lemma written_of_app a b : written_of (a ++ b) = written_of a ++ written_of b.
Proof. apply flat_map_app. Qed.

Lemma opened_of_app a b : opened_of (a ++ b) = opened_of a ++ opened_of b.
Proof. apply flat_map_app. Qed.

(** *** Composition of every generated value *)

Lemma compose_total prefix7 to18 v :
  len prefix7 = 7 -> exists sfid_out, compose prefix7 to18 v = Ok sfid_out.
Proof.
  intros Hp.
  destruct (make_id_total prefix7 v to18 Hp) as (b62 & sfx & _ & _ & _ & _ & H).
  unfold compose. rewrite H. eexists. reflexivity.
Qed.

(** With a prefix of 7 characters the sequential loops run to their end:
    every value is composed, in order. *)
Lemma sequential_loops prefix7 to18 values :
  len prefix7 = 7 ->
  exists ids,
    for_each (compose prefix7 to18) values = Ok ids
    /\ until_raise (map (compose prefix7 to18) values) = (ids, None)
    /\ calls_until_raise prefix7 to18 values
       = map (fun v => Called (CallMakeId prefix7 v to18)) values
    /\ snd (print_each prefix7 to18 values) = Exit 0
    /\ stdout_of (fst (print_each prefix7 to18 values)) = ids
    /\ stderr_of (fst (print_each prefix7 to18 values)) = []
    /\ opened_of (fst (print_each prefix7 to18 values)) = []
    /\ written_of (fst (print_each prefix7 to18 values)) = []
    /\ calls_of (fst (print_each prefix7 to18 values))
       = map (fun v => CallMakeId prefix7 v to18) values.
Proof.
  intros Hp. induction values as [|v values IH].
  - exists []. repeat split.
  - destruct IH as (ids & Hfor & Huntil & Hcalls & Hst & Hout & Herr & Hop & Hwr & Hc).
    destruct (compose_total prefix7 to18 v Hp) as [sfid_out Hv].
    exists (sfid_out :: ids).
    cbn [for_each map until_raise calls_until_raise print_each].
    rewrite Hv, Hfor, Huntil, Hcalls. cbn [bind].
    split; [reflexivity|]. split; [reflexivity|]. split; [reflexivity|].
    unfold after. cbn [fst snd app].
    cbn [stdout_of stderr_of opened_of written_of calls_of flat_map app].
    fold (stdout_of (fst (print_each prefix7 to18 values))).
    fold (stderr_of (fst (print_each prefix7 to18 values))).
    fold (opened_of (fst (print_each prefix7 to18 values))).
    fold (written_of (fst (print_each prefix7 to18 values))).
    fold (calls_of (fst (print_each prefix7 to18 values))).
    rewrite Hout, Herr, Hop, Hwr, Hc. repeat split. exact Hst.
Qed.

(** *** The file sink *)

(** Whatever the file system does, the file sink prints nothing and the
    writes are the first lines put on the queue, in order; without a failure
    (and without an exception of the producer) the file is opened once, every
    line is written and the status is 0. *)
Lemma file_sink_lines env outfile sequential calls lines exc :
  only_calls calls ->
  let r := file_sink env outfile sequential calls lines exc in
  stdout_of (fst r) = []
  /\ (exists k, written_of (fst r) = firstn k lines)
  /\ (fault env = NoFault -> exc = None ->
      r = (calls ++ FileOpen outfile :: map FileWrite lines, Exit 0)
      /\ written_of (fst r) = lines
      /\ opened_of (fst r) = [outfile]
      /\ stderr_of (fst r) = []).
Proof.
  intros Hcalls.
  assert (Hfirst : only_calls
            (if sequential
             then firstn (Z.to_nat (QUEUE_MAXSIZE + 0 + 1)) calls else calls)
          /\ forall k, only_calls
               (if sequential
                then firstn (Z.to_nat (QUEUE_MAXSIZE + (Z.of_nat k + 1) + 1)) calls
                else calls)).
  { split; [|intros k]; destruct sequential;
      (assumption || now apply only_calls_firstn). }
  destruct Hfirst as [Hf0 Hfk].
  destruct (only_calls_silent _ Hcalls) as (Hc1 & Hc2 & Hc3 & Hc4).
  destruct (only_calls_silent _ Hf0) as (Hz1 & _ & _ & Hz4).
  destruct (file_writes_silent lines) as (Hw1 & Hw2 & Hw3).
  assert (Hall : forall tail,
            stdout_of tail = [] -> written_of tail = [] ->
            stdout_of ((calls ++ FileOpen outfile :: map FileWrite lines) ++ tail) = []
            /\ written_of ((calls ++ FileOpen outfile :: map FileWrite lines) ++ tail)
               = lines).
  { intros tail Ht1 Ht2.
    rewrite !stdout_of_app, !written_of_app, Hc1, Hc4, Ht1, Ht2.
    change (stdout_of (FileOpen outfile :: map FileWrite lines))
      with (stdout_of (map FileWrite lines)).
    change (written_of (FileOpen outfile :: map FileWrite lines))
      with (written_of (map FileWrite lines)).
    rewrite Hw1, written_of_file_writes, !app_nil_r. split; reflexivity. }
  assert (Htail : forall (b : bool),
            stdout_of (fst (match exc with
                            | Some e => ([], Uncaught e)
                            | None => if b then fail DiagWriteError 4
                                      else ([], Exit 0)
                            end)) = []
            /\ written_of (fst (match exc with
                                | Some e => ([], Uncaught e)
                                | None => if b then fail DiagWriteError 4
                                          else ([], Exit 0)
                                end)) = []).
  { intros b. destruct exc, b; split; reflexivity. }
  destruct (Htail true) as [Ht1 Ht4].
  destruct (Htail false) as [Hn1 Hn4].
  cbv zeta. unfold file_sink, writer.
  destruct (fault env) as [| |k] eqn:Hfault.
  - (* no failure *)
    cbn [andb]. unfold after. cbn [fst snd].
    destruct (Hall _ Hn1 Hn4) as [Ho Hw].
    split; [exact Ho|]. split.
    + exists (length lines). rewrite firstn_all. exact Hw.
    + intros _ ->. cbn [fst]. rewrite app_nil_r.
      split; [reflexivity|]. split; [|split].
      * rewrite written_of_app, Hc4.
        exact (written_of_file_writes lines).
      * rewrite opened_of_app, Hc3. cbn. fold (opened_of (map FileWrite lines)).
        now rewrite Hw3.
      * unfold stderr_of. rewrite flat_map_app.
        fold (stderr_of calls). rewrite Hc2. cbn.
        fold (stderr_of (map FileWrite lines)). exact Hw2.
  - (* open fails *)
    cbn [andb].
    split; [|split; [exists 0%nat|intros; discriminate]];
      destruct (QUEUE_MAXSIZE + 0 <? len lines + 1); cbn [fst];
      unfold after; cbn [fst];
      rewrite ?app_nil_r, ?stdout_of_app, ?written_of_app, ?Hz1, ?Hz4, ?Hc1, ?Hc4,
        ?Ht1, ?Ht4; destruct exc; reflexivity.
  - (* a write fails *)
    destruct (Nat.ltb_spec k (length lines)) as [Hk|Hk].
    + destruct (only_calls_silent _ (Hfk k)) as (Hk1 & _ & _ & Hk4).
      destruct (file_writes_silent (firstn k lines)) as (Hf1 & _ & _).
      cbn [andb].
      split; [|split; [exists k|intros; discriminate]];
        destruct (QUEUE_MAXSIZE + (Z.of_nat k + 1) <? len lines + 1);
        cbn [fst]; unfold after; cbn [fst];
        rewrite ?stdout_of_app, ?written_of_app, ?Hk1, ?Hk4, ?Hc1, ?Hc4,
          ?Ht1, ?Ht4;
        change (stdout_of (FileOpen outfile :: map FileWrite (firstn k lines)))
          with (stdout_of (map FileWrite (firstn k lines)));
        change (written_of (FileOpen outfile :: map FileWrite (firstn k lines)))
          with (written_of (map FileWrite (firstn k lines)));
        rewrite ?Hf1, ?written_of_file_writes, ?app_nil_r;
        destruct exc; rewrite ?app_nil_r; reflexivity.
    + cbn [andb]. unfold after. cbn [fst snd].
      destruct (Hall _ Hn1 Hn4) as [Ho Hw].
      split; [exact Ho|]. split; [|intros; discriminate].
      exists (length lines). rewrite firstn_all. exact Hw.
Qed.

(** *** Enumeration *)

Lemma start_value_range args id15 current_value start_value :
  normalize_to_15 (Args.id args) = Ok id15 ->
  base62_to_int (skipn 7 id15) = Ok current_value ->
  start_value_of args current_value = inr start_value ->
  0 <= start_value <= MAX_BASE62_8.
Proof.
  intros Hid Hcur Hstart.
  destruct (split_and_decode id15 (normalize_to_15_len _ _ Hid)) as (_ & _ & H8).
  pose proof (base62_to_int_8 _ _ H8 Hcur) as Hrange.
  unfold start_value_of in Hstart.
  destruct (Args.mode args); try (injection Hstart as <-; exact Hrange).
  destruct (Args.start args) as [st|]; [|discriminate].
  destruct (Z.ltb_spec st 0); [discriminate|].
  destruct (Z.gtb_spec st MAX_BASE62_8); [discriminate|].
  injection Hstart as <-. lia.
Qed.

(** From a start value of the counter range a non-zero [seq] yields the
    start value first. *)
Lemma gen_value_sequence_head start_value seq :
  0 <= start_value <= MAX_BASE62_8 -> seq <> 0 ->
  exists rest, gen_value_sequence start_value seq = start_value :: rest.
Proof.
  intros [Hlo Hhi] Hnz. unfold gen_value_sequence.
  destruct (Z.eqb_spec seq 0) as [|_]; [contradiction|].
  destruct (Z.to_nat (Z.abs seq)) as [|r] eqn:Hr; [lia|].
  cbn [gen_loop].
  destruct (Z.leb_spec 0 start_value); [|lia].
  destruct (Z.leb_spec start_value MAX_BASE62_8); [|lia].
  eexists. reflexivity.
Qed.

(** C8. An enumeration run with [threads <= 1] emits the composed IDs of
    the generated values in the order of generation, whatever the sign of
    [seq]: [ids] is the list of the IDs that [make_id] returns for the values
    of [gen_value_sequence], in that order.  With [--displayonly] the lines
    printed are exactly [ids], no file is opened and the status is 0.
    Otherwise nothing is printed, the lines written are always the first
    lines of [ids] (each with its newline) in order, and when the file system
    does not fail the writer they are all of [ids], written to one file
    opened once, with status 0. *)
Theorem C8_sequential_order (env : Env) (args : Args.t) (id15 : str)
    (current_value sq start_value : Z)
    (Hid : normalize_to_15 (Args.id args) = Ok id15)
    (Hcur : base62_to_int (skipn 7 id15) = Ok current_value)
    (Hmode : Args.mode args <> Decode)
    (Hseq : Args.seq args = Some sq) (Hnz : sq <> 0)
    (Hstart : start_value_of args current_value = inr start_value)
    (Hthreads : Args.threads args <= 1) :
  let prefix7 := firstn 7 id15 in
  let values := gen_value_sequence start_value sq in
  let trace := fst (main env args) in
  exists ids,
    for_each (compose prefix7 (Args.to18 args)) values = Ok ids
    /\ (Args.displayonly args = true ->
        stdout_of trace = ids /\ opened_of trace = [] /\ written_of trace = []
        /\ snd (main env args) = Exit 0)
    /\ (Args.displayonly args = false ->
        stdout_of trace = []
        /\ (exists k, written_of trace = firstn k (map add_newline ids))
        /\ (fault env = NoFault ->
            written_of trace = map add_newline ids
            /\ length (opened_of trace) = 1%nat
            /\ snd (main env args) = Exit 0)).
Proof.
  intros prefix7 values trace. subst trace.
  rewrite (main_enumerates env args _ _ _ _ Hid Hcur Hmode Hseq Hnz Hstart).
  fold prefix7. fold values.
  assert (Hp : len prefix7 = 7).
  { apply (split_and_decode id15 (normalize_to_15_len _ _ Hid)). }
  destruct (sequential_loops prefix7 (Args.to18 args) values Hp)
    as (ids & Hfor & Huntil & Hcalls & Hst & Hout & _ & Hop & Hwr & _).
  destruct (gen_value_sequence_head start_value sq
              (start_value_range _ _ _ _ Hid Hcur Hstart) Hnz) as [rest Hv].
  fold values in Hv.
  exists ids. split; [exact Hfor|].
  unfold enumerate. rewrite Hv, <- Hv.
  destruct (Z.leb_spec (Args.threads args) 1) as [_|]; [|lia].
  unfold after. cbn [fst snd app].
  cbn [stdout_of opened_of written_of flat_map app].
  split; intros Hd; rewrite Hd.
  - fold (stdout_of (fst (print_each prefix7 (Args.to18 args) values))).
    fold (opened_of (fst (print_each prefix7 (Args.to18 args) values))).
    fold (written_of (fst (print_each prefix7 (Args.to18 args) values))).
    repeat split; assumption.
  - rewrite Huntil.
    match goal with
    | |- context [file_sink env ?o true ?c ?l None] =>
        destruct (file_sink_lines env o true c l None
                    (only_calls_until_raise _ _ _))
          as (Hso & Hsw & Hok);
        fold (stdout_of (fst (file_sink env o true c l None)));
        fold (written_of (fst (file_sink env o true c l None)));
        fold (opened_of (fst (file_sink env o true c l None)))
    end.
    split; [exact Hso|]. split; [exact Hsw|].
    intros Hfault. destruct (Hok Hfault eq_refl) as (Hr & Hw & Ho & _).
    rewrite Hw, Ho, Hr. repeat split.
Qed.

(** *** No empty result from the command line *)

Lemma not_gen_only_calls t :
  Forall not_gen t -> forall n, Forall not_gen (firstn n t).
Proof.
  intros H n. rewrite <- (firstn_skipn n t) in H. now apply Forall_app in H.
Qed.

Lemma print_each_events prefix7 to18 values :
  Forall not_gen (fst (print_each prefix7 to18 values))
  /\ snd (print_each prefix7 to18 values) <> Exit 3.
Proof.
  induction values as [|v values [IHe IHs]]; [split; [constructor|discriminate]|].
  cbn [print_each]. destruct (compose prefix7 to18 v); unfold after; cbn.
  - split; [repeat constructor; exact IHe | exact IHs].
  - split; [repeat constructor | discriminate].
Qed.

Lemma not_gen_make_id prefix7 to18 values :
  Forall not_gen (map (fun v => Called (CallMakeId prefix7 v to18)) values).
Proof. induction values; constructor; [exact I|assumption]. Qed.

Lemma not_gen_until_raise prefix7 to18 values :
  Forall not_gen (calls_until_raise prefix7 to18 values).
Proof.
  induction values as [|v values IH]; [constructor|].
  cbn. constructor; [exact I|]. destruct (compose prefix7 to18 v);
    [exact IH|constructor].
Qed.

Lemma not_gen_map (f : str -> Event) lines :
  (forall l, not_gen (f l)) -> Forall not_gen (map f lines).
Proof. intros H. induction lines; constructor; [apply H|assumption]. Qed.

Lemma print_completed_events env prefix7 to18 values :
  Forall not_gen (fst (print_completed env prefix7 to18 values))
  /\ snd (print_completed env prefix7 to18 values) <> Exit 3.
Proof.
  unfold print_completed.
  destruct (until_raise _) as [lines exc]. unfold after. cbn [fst snd].
  split.
  - apply Forall_app. split; [apply not_gen_make_id|].
    apply not_gen_map. intros l. exact I.
  - destruct exc; discriminate.
Qed.

Lemma file_sink_events env outfile sequential calls lines exc :
  Forall not_gen calls ->
  Forall not_gen (fst (file_sink env outfile sequential calls lines exc))
  /\ snd (file_sink env outfile sequential calls lines exc) <> Exit 3.
Proof.
  intros Hcalls. unfold file_sink.
  assert (Hw : Forall not_gen (fst (fst (writer env outfile lines)))).
  { unfold writer.
    destruct (fault env) as [| |k]; [| constructor |
      destruct (k <? length lines)%nat]; cbn [fst];
      (constructor; [exact I|]); apply not_gen_map; intros l; exact I. }
  destruct (writer env outfile lines) as [[written taken] failed].
  cbn [fst] in Hw.
  destruct (failed && (QUEUE_MAXSIZE + taken <? len lines + 1)).
  - cbn [fst snd]. split; [|discriminate].
    apply Forall_app. split; [|exact Hw].
    destruct sequential; [now apply not_gen_only_calls | exact Hcalls].
  - unfold after. cbn [fst snd].
    split.
    + apply Forall_app. split; [apply Forall_app; now split|].
      destruct exc; [constructor|]. destruct failed; repeat constructor.
    + destruct exc; [discriminate|]. destruct failed; discriminate.
Qed.

Lemma enumerate_events env args prefix7 values :
  Forall not_gen (fst (enumerate env args prefix7 values))
  /\ (values <> [] -> snd (enumerate env args prefix7 values) <> Exit 3).
Proof.
  unfold enumerate. destruct values as [|v values].
  { split; [repeat constructor | intros H; contradiction]. }
  set (vs := v :: values).
  destruct (Args.displayonly args), (Args.threads args <=? 1).
  - destruct (print_each_events prefix7 (Args.to18 args) vs). now split.
  - destruct (print_completed_events env prefix7 (Args.to18 args) vs).
    now split.
  - destruct (until_raise _) as [ids exc].
    match goal with
    | |- context [file_sink env ?o true ?c ?l exc] =>
        destruct (file_sink_events env o true c l exc
                    (not_gen_until_raise _ _ _))
    end. now split.
  - destruct (until_raise _) as [ids exc].
    match goal with
    | |- context [file_sink env ?o false ?c ?l exc] =>
        destruct (file_sink_events env o false c l exc
                    (not_gen_make_id _ _ _))
    end. now split.
Qed.

(** C10. No run of [main] ends with status 3.  Whenever the generator is
    called, its start value lies in [0, 62^8 - 1] (an 8-character counter
    decodes into this range, and [--start] has been checked) and [seq] is not
    zero, so the list of generated values is not empty. *)
Theorem C10_empty_result_unreachable (env : Env) (args : Args.t) :
  snd (main env args) <> Exit 3
  /\ (forall start_value seq,
        In (Called (CallGen start_value seq)) (fst (main env args)) ->
        0 <= start_value <= MAX_BASE62_8 /\ seq <> 0
        /\ gen_value_sequence start_value seq <> []).
Proof.
  destruct (main_cases env args) as [[d H]|[[n H]|H]].
  - rewrite H. split; [discriminate|].
    intros sv sq [E|[]]. discriminate.
  - rewrite H. split; [discriminate|].
    intros sv sq [E|[]]. discriminate.
  - destruct H as (id15 & cur & sq & sv & Hid & Hcur & Hmode & Hseq & Hnz
                   & Hstart & Hrange).
    rewrite (main_enumerates env args _ _ _ _ Hid Hcur Hmode Hseq Hnz Hstart).
    destruct (gen_value_sequence_head sv sq Hrange Hnz) as [rest Hv].
    destruct (enumerate_events env args (firstn 7 id15)
                (gen_value_sequence sv sq)) as [Hev Hst].
    unfold after. cbn [fst snd app]. split.
    + apply Hst. rewrite Hv. discriminate.
    + intros sv' sq' [E|Hin].
      * injection E as <- <-. repeat split; try assumption; try lia.
        rewrite Hv. discriminate.
      * exfalso. apply (proj1 (Forall_forall _ _) Hev) in Hin. exact Hin.
Qed.

Example generation_is_reached :
  In (Called (CallGen 373653603 (-2)))
     (fst (main env0 (args0 EnumFromCurrent None (Some (-2)) true))).
Proof. left. reflexivity. Qed.

(** *** The empty result *)

(** C4 (amended). An enumeration run with [--seq 0] is turned down as invalid
    input before the generator is called: the status is 2 and the whole trace
    is one diagnostic on the error stream, so no output file is created or
    truncated and no ID line is printed; for a SalesforceId the diagnostic is
    the one about [--seq].  The branch of the driver for an empty list of
    values ends with status 3, and its trace is one diagnostic as well. *)
Theorem C4_zero_seq_rejected (env : Env) (args : Args.t)
    (Hmode : Args.mode args <> Decode)
    (Hseq : Args.seq args = Some 0) :
  (forall start_value, gen_value_sequence start_value 0 = [])
  /\ (exists d, main env args = ([Stderr d], Exit 2))
  /\ (is_salesforce_id (Args.id args) = true ->
      main env args = ([Stderr DiagSeqRequired], Exit 2))
  /\ (forall prefix7,
        enumerate env args prefix7 [] = ([Stderr DiagNoValues], Exit 3)).
Proof.
  split; [reflexivity|]. split; [|split; [|reflexivity]].
  - destruct (main_cases env args) as [H|[[n H]|H]]; [exact H| |].
    + exfalso. revert H. unfold main.
      destruct (normalize_to_15 (Args.id args)); [|discriminate].
      match goal with |- context [match ?r with Ok _ => _ | Raise _ => _ end] =>
        destruct r as [[p cur]|]; [|discriminate] end.
      rewrite Hseq. destruct (Args.mode args); [contradiction| |]; discriminate.
    + destruct H as (_ & _ & sq & _ & _ & _ & _ & Hsq & Hnz & _).
      rewrite Hseq in Hsq. injection Hsq as <-. contradiction.
  - intros Hvalid.
    destruct (main_valid_id env args Hvalid) as (n & _ & _ & _ & ->).
    rewrite Hseq.
    destruct (Args.mode args); [contradiction| |]; reflexivity.
Qed.

(** * Further properties *)

(** ** Base62: domain, alphabet and the inverse round trip *)

Lemma base62_fold_chars s m n :
  base62_fold s m = Ok n -> forallb ascii_alnum s = true.
Proof.
  revert m. induction s as [|c s IH]; intros m H; [reflexivity|].
  cbn [base62_fold] in H. cbn [forallb].
  rewrite (find_alphabet_alnum c).
  destruct (find ALPHABET c =? -1); [discriminate|]. cbn [negb andb].
  exact (IH _ H).
Qed.

(** A position answered by [find] holds the character looked for. *)
Lemma find_from_nth l c i :
  0 <= i -> find_from l c i <> -1 ->
  nth_error l (Z.to_nat (find_from l c i - i)) = Some c.
Proof.
  revert i. induction l as [|a l IH]; intros i Hi H; [now contradiction H|].
  cbn [find_from] in *. destruct (N.eqb_spec a c) as [->|Hne].
  - rewrite Z.sub_diag. reflexivity.
  - destruct (find_from_spec l c (i + 1)) as [(E & _)|[(Hr & _)|]];
      [contradiction | | lia].
    specialize (IH (i + 1) ltac:(lia) H).
    replace (Z.to_nat (find_from l c (i + 1) - i))
      with (S (Z.to_nat (find_from l c (i + 1) - (i + 1)))) by lia.
    exact IH.
Qed.

Lemma find_alphabet_inj c c' :
  find ALPHABET c <> -1 -> find ALPHABET c = find ALPHABET c' -> c = c'.
Proof.
  intros Hc E. unfold find in *.
  pose proof (find_from_nth ALPHABET c 0 ltac:(lia) Hc) as H1.
  rewrite E in Hc.
  pose proof (find_from_nth ALPHABET c' 0 ltac:(lia) Hc) as H2.
  rewrite E in H1. congruence.
Qed.

(** Two strings of the same length that decode to the same integer are the
    same string. *)
Lemma base62_fold_inj s t m m' n :
  length s = length t -> 0 <= m -> 0 <= m' ->
  base62_fold s m = Ok n -> base62_fold t m' = Ok n ->
  m = m' /\ s = t.
Proof.
  revert t m m'. induction s as [|c s IH]; intros [|d t] m m' Hlen Hm Hm' Hs Ht;
    try discriminate.
  - cbn in Hs, Ht. split; [congruence|reflexivity].
  - cbn [base62_fold] in Hs, Ht.
    destruct (find_alphabet_range c) as [E|Hc]; [rewrite E in Hs; discriminate|].
    destruct (find_alphabet_range d) as [E|Hd]; [rewrite E in Ht; discriminate|].
    destruct (Z.eqb_spec (find ALPHABET c) (-1)); [lia|].
    destruct (Z.eqb_spec (find ALPHABET d) (-1)); [lia|].
    rewrite BASE_eq in *.
    destruct (IH t (m * 62 + find ALPHABET c) (m' * 62 + find ALPHABET d))
      as [Hacc ->]; try assumption; try lia.
    { simpl in Hlen. lia. }
    assert (m = m') by lia. subst m'.
    split; [reflexivity|]. f_equal.
    apply find_alphabet_inj; lia.
Qed.

(** X1. [int_to_base62] raises exactly on negative integers.  On every other
    integer it returns a string of characters of the alphabet [0-9A-Za-z],
    at least one and at least [min_len] of them. *)
Theorem int_to_base62_domain (n min_len : Z) :
  (n < 0 -> int_to_base62 n min_len = Raise NegativeInteger)
  /\ (0 <= n ->
      exists s, int_to_base62 n min_len = Ok s
                /\ forallb ascii_alnum s = true
                /\ 1 <= len s /\ min_len <= len s).
Proof.
  split.
  - intros Hn. unfold int_to_base62.
    destruct (Z.ltb_spec n 0); [reflexivity|lia].
  - intros Hn.
    destruct (int_to_base62_spec n min_len Hn)
      as (s & Hs & Hdec & d & Hd & Hlen & _).
    destruct (int_to_base62_spec n 1 Hn)
      as (d' & Hd' & _ & d'' & Hd'' & Hlen' & _).
    assert (d'' = d') by congruence. subst d''.
    assert (d' = d) by congruence. subst d'.
    exists s. split; [exact Hs|]. split; [exact (base62_fold_chars _ _ _ Hdec)|].
    lia.
Qed.

Lemma int_to_base62_of_decoded (s : str) (n : Z) :
  s <> [] -> base62_to_int s = Ok n -> int_to_base62 n (len s) = Ok s.
Proof.
  intros Hne Hdec.
  pose proof (base62_fold_range _ _ _ Hdec ltac:(lia)) as Hrange.
  assert (Hn : 0 <= n) by lia.
  assert (Hpos : 0 < len s).
  { destruct s; [contradiction|]. unfold len. simpl. lia. }
  destruct (int_to_base62_spec n (len s) Hn)
    as (t & Ht & Hdect & d & _ & Hlen & Hb).
  specialize (Hb (len s) Hpos ltac:(lia)).
  rewrite Ht. f_equal.
  destruct (base62_fold_inj t s 0 0 n) as [_ E]; try assumption; try lia.
  unfold len in *. lia.
Qed.

(** X2. Encoding undoes decoding: a non-empty string [s] of alphabet
    characters is what [int_to_base62] returns for the integer [s] decodes
    to, padded to the length of [s]; so two strings of the same length that
    decode to the same integer are equal. *)
Theorem base62_decode_encode (s : str) (n : Z)
    (Hne : s <> [])
    (Hdec : base62_to_int s = Ok n) :
  int_to_base62 n (len s) = Ok s
  /\ forall t, len t = len s -> base62_to_int t = Ok n -> t = s.
Proof.
  split; [now apply int_to_base62_of_decoded|].
  intros t Hlen Ht.
  destruct (base62_fold_inj t s 0 0 n) as [_ E]; try assumption; try lia.
  unfold len in Hlen. lia.
Qed.

(** X3. [base62_to_int] fails exactly on a string with a character outside
    [0-9A-Za-z], and the exception names the first such character. *)
Theorem base62_to_int_error (s : str) (e : Error) :
  base62_to_int s = Raise e
  <-> exists pre c post,
        s = pre ++ c :: post
        /\ forallb ascii_alnum pre = true
        /\ ascii_alnum c = false
        /\ e = InvalidBase62Char c.
Proof.
  unfold base62_to_int. generalize 0 at 1. induction s as [|a s IH]; intros m.
  - cbn. split; [discriminate|].
    intros (pre & c & post & E & _). destruct pre; discriminate.
  - cbn [base62_fold]. pose proof (find_alphabet_alnum a) as Ha.
    destruct (find ALPHABET a =? -1); cbn [negb] in Ha.
    + split.
      * intros H. injection H as <-. exists [], a, s. repeat split; assumption.
      * intros (pre & c & post & E & Hpre & Hc & ->).
        destruct pre as [|b pre]; cbn in E; injection E as -> ->.
        -- reflexivity.
        -- cbn in Hpre. rewrite Ha in Hpre. discriminate.
    + rewrite IH. split.
      * intros (pre & c & post & -> & Hpre & Hc & ->).
        exists (a :: pre), c, post. cbn. rewrite Ha. repeat split; assumption.
      * intros (pre & c & post & E & Hpre & Hc & ->).
        destruct pre as [|b pre]; cbn in E; injection E as -> ->.
        -- congruence.
        -- cbn in Hpre. apply andb_true_iff in Hpre as [_ Hpre].
           exists pre, c, post. repeat split; assumption.
Qed.

(** X4. A decoded value is below [62 ^ len s], and leading zero digits do
    not change it. *)
Theorem base62_to_int_bound_and_padding (s : str) (n : Z)
    (Hdec : base62_to_int s = Ok n) :
  0 <= n < BASE ^ len s
  /\ forall k, base62_to_int (repeat (chr "0") k ++ s) = Ok n.
Proof.
  split.
  - pose proof (base62_fold_range _ _ _ Hdec ltac:(lia)). lia.
  - intros k. unfold base62_to_int in *.
    rewrite base62_fold_app, base62_fold_zeros. cbn [bind].
    exact Hdec.
Qed.

(** X5. The natural encoding of a positive integer (with [min_len = 1]) has no
    leading zero and exactly as many digits as the integer needs; a larger
    [min_len] puts zeros in front of it. *)
Theorem int_to_base62_natural (n : Z) (Hn : 0 < n) :
  exists d,
    int_to_base62 n 1 = Ok d
    /\ BASE ^ (len d - 1) <= n < BASE ^ len d
    /\ hd_error d <> Some (chr "0")
    /\ forall min_len,
         int_to_base62 n min_len
         = Ok (repeat (chr "0") (Z.to_nat (min_len - len d)) ++ d).
Proof.
  destruct (digits_loop_spec n [] ltac:(lia)) as (ds & Hloop & Hdec & Hlt & Hge & _).
  specialize (Hge Hn). cbn [app] in Hloop.
  assert (Hlen : len (rev ds) = len ds) by (unfold len; now rewrite length_rev).
  assert (Hpos : 1 <= len ds).
  { destruct ds; [simpl in Hlt; lia|]. unfold len. simpl. lia. }
  assert (Henc : forall min_len,
             int_to_base62 n min_len
             = Ok (repeat (chr "0") (Z.to_nat (min_len - len (rev ds))) ++ rev ds)).
  { intros k. unfold int_to_base62.
    destruct (Z.ltb_spec n 0); [lia|]. destruct (Z.eqb_spec n 0); [lia|].
    rewrite Hloop. cbn [bind].
    destruct (Z.ltb_spec (len (rev ds)) k); [reflexivity|].
    replace (Z.to_nat (k - len (rev ds))) with 0%nat by lia. reflexivity. }
  exists (rev ds). rewrite Hlen. split; [|split; [lia|split]].
  - rewrite Henc. rewrite Hlen.
    replace (Z.to_nat (1 - len ds)) with 0%nat by lia. reflexivity.
  - destruct (rev ds) as [|c d'] eqn:Hrev; [discriminate|].
    cbn. intros E. injection E as ->.
    specialize (Hdec 0). rewrite ?Hrev in Hdec. cbn [base62_fold] in Hdec.
    replace (find ALPHABET 48%N) with 0 in Hdec by reflexivity.
    cbn [Z.eqb] in Hdec. rewrite BASE_eq in *.
    apply base62_fold_range in Hdec; [|lia].
    assert (Hd' : len d' = len ds - 1).
    { rewrite <- Hlen. unfold len. cbn [length]. lia. }
    rewrite Hd', BASE_eq in Hdec. lia.
  - intros k. rewrite Henc, Hlen. reflexivity.
Qed.

(** ** Checksum: shape and meaning of the suffix *)

(** On 15 characters [id15_to_18] is the input followed by the table
    entries of its three segments, each read backwards. *)
Lemma id15_to_18_segments id15 :
  len id15 = 15 ->
  id15_to_18 id15 =
  (x <- suffix_char (rev (firstn 5 id15)) ;;
   y <- suffix_char (rev (firstn 5 (skipn 5 id15))) ;;
   z <- suffix_char (rev (firstn 5 (skipn 10 id15))) ;;
   Ok (id15 ++ [x; y; z])).
Proof.
  intros H. unfold id15_to_18. rewrite H. cbn [Z.eqb Pos.eqb negb].
  cbn [map for_each]. unfold slice.
  change (0 + 5 - 0)%nat with 5%nat. change (5 + 5 - 5)%nat with 5%nat.
  change (10 + 5 - 10)%nat with 5%nat. change (skipn 0 id15) with id15.
  destruct (suffix_char (rev (firstn 5 id15))); [|reflexivity].
  destruct (suffix_char (rev (firstn 5 (skipn 5 id15)))); [|reflexivity].
  destruct (suffix_char (rev (firstn 5 (skipn 10 id15)))); reflexivity.
Qed.

(** The table entry of a segment of five characters is a checksum character,
    and two segments have the same entry exactly when they have upper-case
    letters at the same places. *)
Lemma suffix_char_pattern seg seg' :
  length seg = 5%nat -> length seg' = 5%nat ->
  exists x y,
    suffix_char seg = Ok x /\ suffix_char seg' = Ok y
    /\ checksum_char x = true
    /\ (x = y <-> map isupper seg = map isupper seg').
Proof.
  destruct seg as [|a1 [|a2 [|a3 [|a4 [|a5 [|a6 seg]]]]]]; try discriminate.
  destruct seg' as [|b1 [|b2 [|b3 [|b4 [|b5 [|b6 seg']]]]]]; try discriminate.
  intros _ _. unfold suffix_char. cbn [map].
  destruct (isupper a1), (isupper a2), (isupper a3), (isupper a4), (isupper a5),
    (isupper b1), (isupper b2), (isupper b3), (isupper b4), (isupper b5);
    eexists; eexists;
    (split; [vm_compute; reflexivity|]);
    (split; [vm_compute; reflexivity|]);
    (split; [vm_compute; reflexivity|]);
    split; intros H; (reflexivity || discriminate).
Qed.

Lemma length_segment (id15 : str) k :
  length id15 = 15%nat -> (k <= 10)%nat ->
  length (rev (firstn 5 (skipn k id15))) = 5%nat.
Proof.
  intros H Hk. rewrite length_rev, length_firstn, length_skipn. lia.
Qed.

(** The upper-case pattern of a string of 15 characters is that of its three
    segments. *)
Lemma pattern_segments (a b : str) :
  length a = 15%nat -> length b = 15%nat ->
  (map isupper a = map isupper b
   <-> map isupper (rev (firstn 5 a)) = map isupper (rev (firstn 5 b))
       /\ map isupper (rev (firstn 5 (skipn 5 a)))
          = map isupper (rev (firstn 5 (skipn 5 b)))
       /\ map isupper (rev (firstn 5 (skipn 10 a)))
          = map isupper (rev (firstn 5 (skipn 10 b)))).
Proof.
  intros Ha Hb.
  assert (Hsplit : forall l : str,
            l = firstn 5 l ++ firstn 5 (skipn 5 l) ++ skipn 5 (skipn 5 l)).
  { intros l. now rewrite !firstn_skipn. }
  assert (Hlast : forall l : str, length l = 15%nat ->
            firstn 5 (skipn 10 l) = skipn 5 (skipn 5 l)).
  { intros l Hl. rewrite skipn_skipn. cbn [Nat.add].
    apply firstn_all2. rewrite length_skipn. lia. }
  rewrite !map_rev, !(Hlast _ Ha), !(Hlast _ Hb).
  split.
  - intros H. rewrite <- !firstn_map, <- !skipn_map, H. repeat split.
  - intros (H1 & H2 & H3).
    apply (f_equal (@rev bool)) in H1, H2, H3.
    rewrite !rev_involutive in H1, H2, H3.
    rewrite (Hsplit a), (Hsplit b), !map_app. congruence.
Qed.

(** On 15 characters: the result is the input and 3 checksum characters. *)
Lemma id15_to_18_suffix (id15 : str) :
  len id15 = 15 ->
  exists suffix,
    id15_to_18 id15 = Ok (id15 ++ suffix)
    /\ len suffix = 3 /\ len (id15 ++ suffix) = 18
    /\ forallb checksum_char suffix = true.
Proof.
  intros H. rewrite (id15_to_18_segments _ H).
  assert (Hl : length id15 = 15%nat) by (unfold len in H; lia).
  destruct (suffix_char_pattern _ _ (length_segment id15 0 Hl ltac:(lia))
              (length_segment id15 0 Hl ltac:(lia)))
    as (x & _ & Hx & _ & Hcx & _).
  destruct (suffix_char_pattern _ _ (length_segment id15 5 Hl ltac:(lia))
              (length_segment id15 5 Hl ltac:(lia)))
    as (y & _ & Hy & _ & Hcy & _).
  destruct (suffix_char_pattern _ _ (length_segment id15 10 Hl ltac:(lia))
              (length_segment id15 10 Hl ltac:(lia)))
    as (z & _ & Hz & _ & Hcz & _).
  change (skipn 0 id15) with id15 in Hx. rewrite Hx, Hy, Hz. cbn [bind].
  exists [x; y; z]. split; [reflexivity|]. split; [reflexivity|].
  split; [rewrite len_app, H; reflexivity|].
  cbn [forallb]. now rewrite Hcx, Hcy, Hcz.
Qed.

(** X6. [id15_to_18] raises exactly when its input has not 15 characters.
    Otherwise the result is the input followed by 3 characters, each of them
    one of [A-Z] and [0-5], 18 characters in all. *)
Theorem id15_to_18_shape (id15 : str) :
  (len id15 <> 15 -> id15_to_18 id15 = Raise Not15ForChecksum)
  /\ (len id15 = 15 ->
      exists suffix,
        id15_to_18 id15 = Ok (id15 ++ suffix)
        /\ len suffix = 3 /\ len (id15 ++ suffix) = 18
        /\ forallb checksum_char suffix = true).
Proof.
  split; [|apply id15_to_18_suffix].
  intros H. unfold id15_to_18.
  destruct (Z.eqb_spec (len id15) 15); [contradiction|reflexivity].
Qed.

(** X7. The suffix records the upper-case pattern and nothing else: two
    15-character inputs get the same 3 suffix characters exactly when they
    have upper-case letters at the same positions. *)
Theorem id15_to_18_suffix_is_case_pattern (a b sa sb : str)
    (Ha : len a = 15) (Hb : len b = 15)
    (Hsa : id15_to_18 a = Ok (a ++ sa))
    (Hsb : id15_to_18 b = Ok (b ++ sb)) :
  sa = sb <-> map isupper a = map isupper b.
Proof.
  assert (Hla : length a = 15%nat) by (unfold len in Ha; lia).
  assert (Hlb : length b = 15%nat) by (unfold len in Hb; lia).
  rewrite (id15_to_18_segments _ Ha) in Hsa.
  rewrite (id15_to_18_segments _ Hb) in Hsb.
  destruct (suffix_char_pattern _ _ (length_segment a 0 Hla ltac:(lia))
              (length_segment b 0 Hlb ltac:(lia)))
    as (x & x' & Hx & Hx' & _ & Ex).
  destruct (suffix_char_pattern _ _ (length_segment a 5 Hla ltac:(lia))
              (length_segment b 5 Hlb ltac:(lia)))
    as (y & y' & Hy & Hy' & _ & Ey).
  destruct (suffix_char_pattern _ _ (length_segment a 10 Hla ltac:(lia))
              (length_segment b 10 Hlb ltac:(lia)))
    as (z & z' & Hz & Hz' & _ & Ez).
  change (skipn 0 a) with a in Hx, Ex. change (skipn 0 b) with b in Hx', Ex.
  rewrite Hx, Hy, Hz in Hsa. rewrite Hx', Hy', Hz' in Hsb. cbn [bind] in Hsa, Hsb.
  assert (sa = [x; y; z]).
  { injection Hsa as E. apply app_inv_head in E. congruence. }
  assert (sb = [x'; y'; z']).
  { injection Hsb as E. apply app_inv_head in E. congruence. }
  subst sa sb. rewrite (pattern_segments a b Hla Hlb), <- Ex, <- Ey, <- Ez.
  split.
  - intros E. injection E as -> -> ->. repeat split.
  - intros (-> & -> & ->). reflexivity.
Qed.

Lemma checksum_char_alnum c : checksum_char c = true -> ascii_alnum c = true.
Proof.
  unfold checksum_char, ascii_alnum, between.
  rewrite !orb_true_iff, !andb_true_iff, !N.leb_le. lia.
Qed.

(** X8. Extending and normalising compose to the identity: for 15 characters
    of [0-9A-Za-z], the 18-character ID that [id15_to_18] returns is a
    SalesforceId, and [normalize_to_15] gives the 15 characters back. *)
Theorem normalize_id15_to_18 (id15 : str)
    (Hlen : len id15 = 15)
    (Halnum : forallb ascii_alnum id15 = true) :
  exists id18,
    id15_to_18 id15 = Ok id18
    /\ is_salesforce_id id18 = true
    /\ normalize_to_15 id18 = Ok id15.
Proof.
  destruct (id15_to_18_suffix id15 Hlen)
    as (suffix & H18 & Hs & Hl & Hc).
  exists (id15 ++ suffix). split; [exact H18|].
  assert (Hvalid : is_salesforce_id (id15 ++ suffix) = true).
  { unfold is_salesforce_id. rewrite Hl. cbn [Z.eqb Pos.eqb orb andb].
    rewrite forallb_app, Halnum. cbn [andb].
    rewrite forallb_forall in *. intros c Hin.
    apply checksum_char_alnum. now apply Hc. }
  split; [exact Hvalid|].
  destruct (normalize_to_15_valid _ Hvalid) as (-> & _).
  f_equal. rewrite firstn_app.
  assert (length id15 = 15%nat) by (unfold len in Hlen; lia).
  rewrite firstn_all2 by lia.
  replace (15 - length id15)%nat with 0%nat by lia.
  cbn [firstn]. apply app_nil_r.
Qed.

(** ** Splitting and composing *)

Lemma clamp_record_value_id v :
  0 <= v <= MAX_BASE62_8 -> clamp_record_value v = v.
Proof. unfold clamp_record_value. lia. Qed.

(** [make_id] on a value of the counter range: the counter decodes to the
    value. *)
Lemma make_id_in_range prefix7 v to18 :
  len prefix7 = 7 -> 0 <= v <= MAX_BASE62_8 ->
  exists b62 suffix,
    make_id prefix7 v to18
    = Ok (if to18 then (prefix7 ++ b62) ++ suffix else prefix7 ++ b62, b62, v)
    /\ len b62 = 8 /\ len suffix = 3
    /\ base62_to_int b62 = Ok v
    /\ forallb checksum_char suffix = true
    /\ id15_to_18 (prefix7 ++ b62) = Ok ((prefix7 ++ b62) ++ suffix).
Proof.
  intros Hp Hv.
  destruct (int_to_base62_8 v Hv) as (b62 & Hb & Hlen & Hdec).
  destruct (id15_to_18_suffix (prefix7 ++ b62))
    as (suffix & H18 & Hs & _ & Hc); [rewrite len_app; lia|].
  exists b62, suffix. unfold make_id.
  rewrite (clamp_record_value_id v Hv), Hb. cbn [bind].
  repeat split; try assumption.
  destruct to18; [rewrite H18|]; reflexivity.
Qed.

Lemma firstn_app_exact {A} (a b : list A) n :
  length a = n -> firstn n (a ++ b) = a.
Proof.
  intros <-. rewrite firstn_app, firstn_all, Nat.sub_diag. cbn [firstn].
  apply app_nil_r.
Qed.

Lemma skipn_app_exact {A} (a b : list A) n :
  length a = n -> skipn n (a ++ b) = b.
Proof.
  intros <-. rewrite skipn_app, skipn_all, Nat.sub_diag. reflexivity.
Qed.

Lemma make_id_recompose (id15 prefix7 counter8 : str) (n : Z) (to18 : bool) :
  split_id_components id15 = Ok (prefix7, counter8) ->
  base62_to_int counter8 = Ok n ->
  exists id_out,
    make_id prefix7 n to18 = Ok (id_out, counter8, n)
    /\ (to18 = false -> id_out = id15)
    /\ (to18 = true -> id15_to_18 id15 = Ok id_out).
Proof.
  intros Hsplit Hdec.
  unfold split_id_components in Hsplit.
  destruct (Z.eqb_spec (len id15) 15) as [Hlen|]; [|discriminate].
  cbn [negb] in Hsplit.
  assert (prefix7 = firstn 7 id15 /\ counter8 = skipn 7 id15) as [-> ->]
    by (split; congruence).
  destruct (split_and_decode id15 Hlen) as (_ & H7 & H8).
  pose proof (base62_to_int_8 _ _ H8 Hdec) as Hrange.
  assert (Henc : int_to_base62 n 8 = Ok (skipn 7 id15)).
  { rewrite <- H8. apply int_to_base62_of_decoded; [|exact Hdec].
    intros E. rewrite E in H8. discriminate. }
  unfold make_id. rewrite (clamp_record_value_id n Hrange), Henc. cbn [bind].
  rewrite firstn_skipn.
  destruct to18.
  - destruct (id15_to_18_suffix id15 Hlen) as (suffix & H18 & _).
    rewrite H18. cbn [bind]. eexists. split; [reflexivity|].
    split; [discriminate | intros _; reflexivity].
  - cbn [bind]. eexists. split; [reflexivity|].
    split; [intros _; reflexivity | discriminate].
Qed.

(** X9. Decoding and composing again gives the same ID: when a 15-character
    ID splits into a prefix and a counter that decodes to [n], [make_id] of
    the prefix and [n] returns the ID itself (followed by its checksum when
    [to18] is set), the counter and [n]. *)
Theorem make_id_of_split (id15 prefix7 counter8 : str) (n : Z) (to18 : bool)
    (Hsplit : split_id_components id15 = Ok (prefix7, counter8))
    (Hdec : base62_to_int counter8 = Ok n) :
  exists id_out,
    make_id prefix7 n to18 = Ok (id_out, counter8, n)
    /\ (to18 = false -> id_out = id15)
    /\ (to18 = true -> id15_to_18 id15 = Ok id_out).
Proof. exact (make_id_recompose _ _ _ _ _ Hsplit Hdec). Qed.

(** X10. What [make_id] returns can be read back: with a prefix of 7
    characters the first 15 characters of the ID split into the prefix and
    the returned counter, and the counter decodes to the returned (clamped)
    value; if the prefix is of [0-9A-Za-z], the ID is a SalesforceId which
    [normalize_to_15] maps to the prefix followed by the counter. *)
Theorem make_id_reads_back (prefix7 : str) (value : Z) (to18 : bool)
    (Hprefix : len prefix7 = 7) :
  exists id_out b62,
    make_id prefix7 value to18 = Ok (id_out, b62, clamp_record_value value)
    /\ split_id_components (firstn 15 id_out) = Ok (prefix7, b62)
    /\ base62_to_int b62 = Ok (clamp_record_value value)
    /\ (forallb ascii_alnum prefix7 = true ->
        is_salesforce_id id_out = true
        /\ normalize_to_15 id_out = Ok (prefix7 ++ b62)).
Proof.
  destruct (make_id_in_range prefix7 (clamp_record_value value) to18 Hprefix
              (clamp_record_value_range value))
    as (b62 & suffix & Hmk & Hb & Hs & Hdec & Hc & H18).
  assert (Hclamp : clamp_record_value (clamp_record_value value)
                   = clamp_record_value value)
    by (apply clamp_record_value_id, clamp_record_value_range).
  assert (Hmk' : make_id prefix7 value to18
                 = Ok (if to18 then (prefix7 ++ b62) ++ suffix
                       else prefix7 ++ b62, b62, clamp_record_value value)).
  { revert Hmk. unfold make_id. now rewrite Hclamp. }
  assert (Hl15 : length (prefix7 ++ b62) = 15%nat).
  { rewrite length_app. unfold len in *. lia. }
  assert (Hl7 : length prefix7 = 7%nat) by (unfold len in *; lia).
  set (id_out := if to18 then (prefix7 ++ b62) ++ suffix else prefix7 ++ b62)
    in Hmk'.
  assert (Hfirst : firstn 15 id_out = prefix7 ++ b62).
  { unfold id_out.
    destruct to18; [now apply firstn_app_exact | now apply firstn_all2; lia]. }
  exists id_out, b62. split; [exact Hmk'|]. rewrite Hfirst.
  split; [|split; [exact Hdec|]].
  - unfold split_id_components.
    replace (len (prefix7 ++ b62)) with 15 by (unfold len; lia).
    cbn [Z.eqb Pos.eqb negb].
    now rewrite firstn_app_exact, skipn_app_exact.
  - intros Hp.
    assert (Hvalid : is_salesforce_id id_out = true).
    { assert (H15 : forallb ascii_alnum (prefix7 ++ b62) = true).
      { rewrite forallb_app, Hp. apply (base62_fold_chars _ _ _ Hdec). }
      unfold is_salesforce_id, id_out. destruct to18.
      - replace (len ((prefix7 ++ b62) ++ suffix)) with 18
          by (rewrite len_app; unfold len in *; lia).
        cbn [Z.eqb Pos.eqb orb andb]. rewrite forallb_app, H15. cbn [andb].
        rewrite forallb_forall in *. intros c Hin.
        apply checksum_char_alnum. now apply Hc.
      - replace (len (prefix7 ++ b62)) with 15 by (unfold len; lia).
        exact H15. }
    split; [exact Hvalid|].
    destruct (normalize_to_15_valid _ Hvalid) as (Hnorm & _).
    rewrite Hnorm, Hfirst. reflexivity.
Qed.

(** ** The value sequence: how many values, and which *)

(** The values of the loop in closed form. *)
Lemma gen_loop_closed remaining current step :
  (step = 1 \/ step = -1) ->
  let room := if step =? 1 then MAX_BASE62_8 - current + 1 else current + 1 in
  let n := if in_range current then Z.min (Z.of_nat remaining) room else 0 in
  gen_loop remaining current step
  = map (fun i => current + step * Z.of_nat i) (List.seq 0 (Z.to_nat n)).
Proof.
  intros Hstep room n.
  destruct (gen_loop_spec remaining current step) as (k & Hk & Heq & Hin & Hout).
  rewrite Heq. repeat f_equal.
  subst n room. unfold in_range.
  pose proof MAX_BASE62_8_eq as HM.
  destruct (Z.leb_spec 0 current), (Z.leb_spec current MAX_BASE62_8);
    cbn [andb].
  - assert (Hk1 : forall i, (i < k)%nat ->
               Z.of_nat i < (if step =? 1 then MAX_BASE62_8 - current + 1
                             else current + 1)).
    { intros i Hi. specialize (Hin i Hi).
      destruct Hstep as [-> | ->]; cbn [Z.eqb Pos.eqb]; lia. }
    assert (Hk2 : (k < remaining)%nat ->
               (if step =? 1 then MAX_BASE62_8 - current + 1 else current + 1)
               <= Z.of_nat k).
    { intros Hlt. specialize (Hout Hlt).
      destruct Hstep as [-> | ->]; cbn [Z.eqb Pos.eqb]; lia. }
    destruct k as [|k].
    + destruct remaining as [|r]; [lia|]. specialize (Hk2 ltac:(lia)).
      destruct Hstep as [-> | ->]; cbn [Z.eqb Pos.eqb] in *; lia.
    + specialize (Hk1 k ltac:(lia)).
      destruct (Nat.eq_dec (S k) remaining) as [<-|Hne]; [lia|].
      specialize (Hk2 ltac:(lia)). lia.
  - destruct k as [|k]; [reflexivity|]. specialize (Hin 0%nat ltac:(lia)). lia.
  - destruct k as [|k]; [reflexivity|]. specialize (Hin 0%nat ltac:(lia)). lia.
  - destruct k as [|k]; [reflexivity|]. specialize (Hin 0%nat ltac:(lia)). lia.
Qed.

Lemma gen_value_sequence_closed start_value seq :
  let room := if seq >? 0 then MAX_BASE62_8 - start_value + 1
              else start_value + 1 in
  let n := if in_range start_value then Z.min (Z.abs seq) room else 0 in
  gen_value_sequence start_value seq
  = map (fun i => start_value + Z.sgn seq * Z.of_nat i)
        (List.seq 0 (Z.to_nat n)).
Proof.
  intros room n. subst room n. unfold gen_value_sequence.
  pose proof MAX_BASE62_8_eq as HM.
  destruct (Z.eqb_spec seq 0) as [->|Hnz].
  - cbn [Z.abs Z.gtb Z.compare].
    replace (Z.to_nat _) with 0%nat; [reflexivity|].
    unfold in_range.
    destruct ((0 <=? start_value) && (start_value <=? MAX_BASE62_8)) eqn:E;
      [|reflexivity].
    apply andb_true_iff in E as [E1 E2]. apply Z.leb_le in E1. lia.
  - rewrite gen_loop_closed by (destruct (Z.gtb_spec seq 0); [left|right]; reflexivity).
    cbv zeta. rewrite Z2Nat.id by lia.
    destruct (Z.gtb_spec seq 0) as [Hpos|Hneg].
    + cbn [Z.eqb Pos.eqb]. rewrite (Z.sgn_pos seq) by lia. reflexivity.
    + cbn [Z.eqb]. rewrite (Z.sgn_neg seq) by lia. reflexivity.
Qed.

Lemma NoDup_map_inj {A B} (f : A -> B) (l : list A) :
  (forall x y, In x l -> In y l -> f x = f y -> x = y) ->
  NoDup l -> NoDup (map f l).
Proof.
  intros Hinj Hnd. induction Hnd as [|a l Hnin Hnd IH]; [constructor|].
  cbn [map]. constructor.
  - intros Hin. apply in_map_iff in Hin as (x & E & Hx).
    apply Hnin. rewrite <- (Hinj x a); [exact Hx | now right | now left | exact E].
  - apply IH. intros x y Hx Hy. apply Hinj; now right.
Qed.

Lemma NoDup_map_affine current step n :
  step <> 0 ->
  NoDup (map (fun i => current + step * Z.of_nat i) (List.seq 0 n)).
Proof.
  intros Hs. apply NoDup_map_inj; [|apply seq_NoDup].
  intros i j _ _ E. nia.
Qed.

Lemma gen_value_sequence_NoDup start_value seq :
  NoDup (gen_value_sequence start_value seq).
Proof.
  rewrite gen_value_sequence_closed. cbv zeta.
  destruct (Z.eq_dec seq 0) as [->|Hnz].
  - replace (Z.to_nat _) with 0%nat; [constructor|].
    destruct (in_range start_value) eqn:E; [|reflexivity].
    unfold in_range in E. apply andb_true_iff in E as [E1 E2].
    apply Z.leb_le in E1. cbn. lia.
  - apply NoDup_map_affine. pose proof (Z.sgn_spec seq). lia.
Qed.

Lemma gen_loop_in_range remaining current step :
  forallb in_range (gen_loop remaining current step) = true.
Proof.
  revert current. induction remaining as [|r IH]; intros current; [reflexivity|].
  cbn [gen_loop]. fold (in_range current).
  destruct (in_range current) eqn:E; [|reflexivity].
  cbn [forallb]. now rewrite E, IH.
Qed.

(** X11. The number of generated values: none when the start value lies
    outside [0, 62^8 - 1]; otherwise the smaller of [|seq|] and the number of
    values from the start value to the bound in the direction of [seq].  The
    values are pairwise different and all lie in the range. *)
Theorem gen_value_sequence_count (start_value seq : Z) :
  len (gen_value_sequence start_value seq)
  = (if in_range start_value
     then Z.min (Z.abs seq)
            (if seq >? 0 then MAX_BASE62_8 - start_value + 1
             else start_value + 1)
     else 0)
  /\ NoDup (gen_value_sequence start_value seq)
  /\ forallb in_range (gen_value_sequence start_value seq) = true.
Proof.
  pose proof MAX_BASE62_8_eq as HM.
  split; [|split].
  - rewrite gen_value_sequence_closed. cbv zeta. unfold len.
    rewrite length_map, length_seq.
    unfold in_range.
    destruct (Z.leb_spec 0 start_value), (Z.leb_spec start_value MAX_BASE62_8);
      cbn [andb]; try reflexivity.
    destruct (Z.gtb_spec seq 0); lia.
  - apply gen_value_sequence_NoDup.
  - unfold gen_value_sequence. destruct (seq =? 0); [reflexivity|].
    apply gen_loop_in_range.
Qed.

Lemma rev_affine start k :
  rev (map (fun i => start + 1 * Z.of_nat i) (List.seq 0 k))
  = map (fun i => start + Z.of_nat k - 1 + -1 * Z.of_nat i) (List.seq 0 k).
Proof.
  revert start. induction k as [|k IH]; intros start; [reflexivity|].
  rewrite seq_S at 1. rewrite map_app, rev_app_distr. cbn [map rev app Nat.add].
  rewrite IH. cbn [List.seq map].
  apply (f_equal2 (@cons Z)); [lia|].
  rewrite <- seq_shift, map_map. apply map_ext. intros i. lia.
Qed.

(** X12. Up and down agree: when [k > 0] values from [start_value] upward all
    lie in the range, generating [k] values downward from the last of them
    gives the same values in the opposite order. *)
Theorem gen_value_sequence_reverse (start_value k : Z)
    (Hk : 0 < k)
    (Hlo : 0 <= start_value)
    (Hhi : start_value + k - 1 <= MAX_BASE62_8) :
  gen_value_sequence (start_value + k - 1) (- k)
  = rev (gen_value_sequence start_value k)
  /\ len (gen_value_sequence start_value k) = k.
Proof.
  pose proof MAX_BASE62_8_eq as HM.
  rewrite !gen_value_sequence_closed. cbv zeta.
  assert (E1 : in_range start_value = true).
  { unfold in_range. apply andb_true_iff. split; apply Z.leb_le; lia. }
  assert (E2 : in_range (start_value + k - 1) = true).
  { unfold in_range. apply andb_true_iff. split; apply Z.leb_le; lia. }
  rewrite E1, E2.
  destruct (Z.gtb_spec k 0); [|lia]. destruct (Z.gtb_spec (- k) 0); [lia|].
  rewrite (Z.sgn_pos k), (Z.sgn_neg (- k)) by lia.
  replace (Z.min (Z.abs (- k)) (start_value + k - 1 + 1)) with k by lia.
  replace (Z.min (Z.abs k) (MAX_BASE62_8 - start_value + 1)) with k by lia.
  split.
  - rewrite rev_affine, Z2Nat.id by lia. reflexivity.
  - unfold len. rewrite length_map, length_seq. lia.
Qed.

(** ** Enumerated IDs *)

(** The counter of a composed ID: characters 8 to 15. *)
Lemma compose_in_range prefix7 to18 v :
  len prefix7 = 7 -> in_range v = true ->
  exists sfid_out,
    compose prefix7 to18 v = Ok sfid_out
    /\ base62_to_int (skipn 7 (firstn 15 sfid_out)) = Ok v
    /\ firstn 7 sfid_out = prefix7
    /\ len sfid_out = (if to18 then 18 else 15).
Proof.
  intros Hp Hv. unfold in_range in Hv. apply andb_true_iff in Hv as [H1 H2].
  apply Z.leb_le in H1, H2.
  destruct (make_id_in_range prefix7 v to18 Hp (conj H1 H2))
    as (b62 & suffix & Hmk & Hb & Hs & Hdec & _ & _).
  unfold compose. rewrite Hmk. cbn [bind].
  assert (Hl7 : length prefix7 = 7%nat) by (unfold len in *; lia).
  assert (Hl15 : length (prefix7 ++ b62) = 15%nat).
  { rewrite length_app. unfold len in *. lia. }
  eexists. split; [reflexivity|].
  destruct to18.
  - rewrite (firstn_app_exact (prefix7 ++ b62) suffix 15 Hl15).
    rewrite (skipn_app_exact prefix7 b62 7 Hl7).
    rewrite <- app_assoc, (firstn_app_exact prefix7 _ 7 Hl7).
    repeat split; try assumption. rewrite !len_app. lia.
  - rewrite firstn_all2 by lia.
    rewrite (skipn_app_exact prefix7 b62 7 Hl7).
    rewrite (firstn_app_exact prefix7 _ 7 Hl7).
    repeat split; try assumption. rewrite !len_app. lia.
Qed.

Lemma for_each_compose_in_range prefix7 to18 values :
  len prefix7 = 7 -> forallb in_range values = true ->
  exists ids,
    for_each (compose prefix7 to18) values = Ok ids
    /\ map (fun sfid => base62_to_int (skipn 7 (firstn 15 sfid))) ids
       = map Ok values
    /\ Forall (fun sfid => firstn 7 sfid = prefix7
                           /\ len sfid = (if to18 then 18 else 15)) ids.
Proof.
  intros Hp. induction values as [|v values IH]; intros Hall.
  - exists []. repeat split. constructor.
  - cbn [forallb] in Hall. apply andb_true_iff in Hall as [Hv Hall].
    destruct (IH Hall) as (ids & Hfor & Hdec & Hshape).
    destruct (compose_in_range prefix7 to18 v Hp Hv) as (sfid & Hc & Hd & H7 & Hl).
    exists (sfid :: ids). cbn [for_each map]. rewrite Hc, Hfor. cbn [bind].
    split; [reflexivity|]. split; [now rewrite Hd, Hdec|].
    constructor; [split; assumption | exact Hshape].
Qed.

(** X13. Every generated value gets an ID of its own: the IDs composed from
    the values of [gen_value_sequence] all start with the prefix, have 15
    characters (18 with [to18]), are pairwise different, and the counter of
    the i-th ID decodes to the i-th value. *)
Theorem enumerated_ids_decode (prefix7 : str) (to18 : bool)
    (start_value seq : Z) (Hprefix : len prefix7 = 7) :
  exists ids,
    for_each (compose prefix7 to18) (gen_value_sequence start_value seq) = Ok ids
    /\ map (fun sfid => base62_to_int (skipn 7 (firstn 15 sfid))) ids
       = map Ok (gen_value_sequence start_value seq)
    /\ NoDup ids
    /\ Forall (fun sfid => firstn 7 sfid = prefix7
                           /\ len sfid = (if to18 then 18 else 15)) ids.
Proof.
  assert (Hin : forallb in_range (gen_value_sequence start_value seq) = true).
  { unfold gen_value_sequence. destruct (seq =? 0); [reflexivity|].
    apply gen_loop_in_range. }
  pose proof (gen_value_sequence_NoDup start_value seq) as Hnd.
  destruct (for_each_compose_in_range prefix7 to18 _ Hprefix Hin)
    as (ids & Hfor & Hdec & Hshape).
  exists ids. split; [exact Hfor|]. split; [exact Hdec|].
  split; [|exact Hshape].
  apply (NoDup_map_inv
           (fun sfid => base62_to_int (skipn 7 (firstn 15 sfid)))).
  rewrite Hdec. apply NoDup_map_inj; [|exact Hnd]. intros x y _ _ E. congruence.
Qed.

(** ** The driver: every path of the enumeration *)

Lemma until_raise_oks ids : until_raise (map Ok ids) = (ids, None).
Proof. induction ids as [|s ids IH]; [reflexivity|]. cbn. now rewrite IH. Qed.

Lemma for_each_map {A B} (f : A -> result B) xs ys :
  for_each f xs = Ok ys -> map f xs = map Ok ys.
Proof.
  revert ys. induction xs as [|x xs IH]; intros ys H.
  - cbn in H. injection H as <-. reflexivity.
  - cbn in H. destruct (f x) as [y|] eqn:E; [|discriminate]. cbn in H.
    destruct (for_each f xs) as [ys'|]; [|discriminate]. cbn in H.
    injection H as <-. cbn. now rewrite E, (IH ys' eq_refl).
Qed.

Lemma as_completed_map {A B} env (f : A -> B) l :
  as_completed env (map f l) = map f (as_completed env l).
Proof.
  unfold as_completed. rewrite length_map.
  induction (completion_order env (length l)) as [|i rest IH]; [reflexivity|].
  cbn [flat_map]. rewrite map_app, IH, nth_error_map.
  now destruct (nth_error l i).
Qed.

Lemma flat_map_nth_error_seq {A} (l : list A) :
  flat_map (fun i => match nth_error l i with
                     | Some a => [a]
                     | None => []
                     end) (List.seq 0 (length l)) = l.
Proof.
  induction l as [|a l IH]; [reflexivity|].
  cbn [length List.seq flat_map nth_error app]. f_equal.
  rewrite <- seq_shift, flat_map_concat_map, map_map, <- flat_map_concat_map.
  exact IH.
Qed.

(** With a fair pool the completed results are the submitted ones, in some
    order. *)
Lemma as_completed_permutation {A} env (l : list A) :
  fair_completion env -> Permutation (as_completed env l) l.
Proof.
  intros Hfair. unfold as_completed.
  eapply Permutation_trans.
  - apply Permutation_flat_map. apply Hfair.
  - rewrite flat_map_nth_error_seq. apply Permutation_refl.
Qed.

Lemma only_calls_make_id prefix7 to18 values :
  only_calls (map (fun v => Called (CallMakeId prefix7 v to18)) values).
Proof.
  apply Forall_forall. intros e He. apply in_map_iff in He as (v & <- & _).
  eexists. reflexivity.
Qed.

(** What [enumerate] does with a non-empty list of values and a prefix of 7
    characters: no call of [make_id] raises; the lines are the composed IDs,
    in the order of the values when [threads <= 1] and in completion order
    otherwise; they go to the console or to the file sink. *)
Lemma enumerate_run env args prefix7 values :
  len prefix7 = 7 -> values <> [] ->
  exists ids,
    for_each (compose prefix7 (Args.to18 args)) values = Ok ids
    /\ let sequential := Args.threads args <=? 1 in
       let lines := if sequential then ids else as_completed env ids in
       let calls :=
         map (fun v => Called (CallMakeId prefix7 v (Args.to18 args))) values in
       if Args.displayonly args then
         snd (enumerate env args prefix7 values) = Exit 0
         /\ stdout_of (fst (enumerate env args prefix7 values)) = lines
         /\ stderr_of (fst (enumerate env args prefix7 values)) = []
         /\ Forall no_file (fst (enumerate env args prefix7 values))
       else
         enumerate env args prefix7 values
         = file_sink env (outfile_of env args) sequential calls
             (map add_newline lines) None.
Proof.
  intros Hp Hne.
  destruct (sequential_loops prefix7 (Args.to18 args) values Hp)
    as (ids & Hfor & Huntil & Hcalls & Hst & Hout & Herr & Hop & Hwr & _).
  exists ids. split; [exact Hfor|]. cbv zeta.
  unfold enumerate. destruct values as [|v values]; [contradiction|].
  set (vs := v :: values) in *.
  fold (outfile_of env args).
  destruct (Args.displayonly args), (Args.threads args <=? 1).
  - split; [exact Hst|]. split; [exact Hout|]. split; [exact Herr|].
    clear - vs. induction vs as [|x xs IH]; [constructor|].
    cbn [print_each]. destruct (compose prefix7 (Args.to18 args) x);
      unfold after; cbn [fst app]; repeat constructor. exact IH.
  - unfold print_completed.
    rewrite (for_each_map _ _ _ Hfor), as_completed_map, until_raise_oks.
    unfold after. cbn [fst snd].
    destruct (only_calls_silent _
                (only_calls_make_id prefix7 (Args.to18 args) vs))
      as (Hc1 & Hc2 & _).
    split; [reflexivity|]. split; [|split].
    + rewrite stdout_of_app, Hc1. cbn [app].
      induction (as_completed env ids) as [|l ls IH]; [reflexivity|].
      cbn. now f_equal.
    + unfold stderr_of. rewrite flat_map_app. fold (stderr_of
        (map (fun v0 => Called (CallMakeId prefix7 v0 (Args.to18 args))) vs)).
      rewrite Hc2. cbn [app].
      induction (as_completed env ids) as [|l ls IH]; [reflexivity|]. exact IH.
    + apply Forall_app. split.
      * apply Forall_forall. intros e He.
        apply in_map_iff in He as (x & <- & _). exact I.
      * apply Forall_forall. intros e He.
        apply in_map_iff in He as (x & <- & _). exact I.
  - rewrite Huntil, Hcalls. reflexivity.
  - rewrite (for_each_map _ _ _ Hfor), as_completed_map, until_raise_oks.
    reflexivity.
Qed.

(** The outcomes of the file sink when no call has raised: every line
    written; a failure reported with status 4 after the lines written before
    it; or the producer blocked for ever on the full queue of a dead writer. *)
Lemma file_sink_cases env outfile sequential calls lines :
  only_calls calls ->
  let r := file_sink env outfile sequential calls lines None in
  (r = (calls ++ FileOpen outfile :: map FileWrite lines, Exit 0)
   /\ (fault env = NoFault
       \/ exists k, fault env = WriteFails k /\ (length lines <= k)%nat))
  \/ (r = (calls ++ [Stderr DiagWriteError], Exit 4)
      /\ fault env = OpenFails /\ len lines < QUEUE_MAXSIZE)
  \/ (exists k,
        r = (calls ++ (FileOpen outfile :: map FileWrite (firstn k lines))
                   ++ [Stderr DiagWriteError], Exit 4)
        /\ fault env = WriteFails k /\ (k < length lines)%nat
        /\ len lines <= QUEUE_MAXSIZE + Z.of_nat k)
  \/ (snd r = Hang /\ only_calls (fst r)
      /\ fault env = OpenFails /\ QUEUE_MAXSIZE <= len lines)
  \/ (exists k calls',
        r = (calls' ++ FileOpen outfile :: map FileWrite (firstn k lines), Hang)
        /\ only_calls calls'
        /\ fault env = WriteFails k /\ (k < length lines)%nat
        /\ QUEUE_MAXSIZE + Z.of_nat k < len lines).
Proof.
  intros Hcalls. cbv zeta. unfold file_sink, writer.
  destruct (fault env) as [| |k] eqn:Hfault.
  - left. cbn [andb]. unfold after. cbn [fst snd]. rewrite app_nil_r.
    split; [reflexivity | left; reflexivity].
  - cbn [andb]. destruct (Z.ltb_spec (QUEUE_MAXSIZE + 0) (len lines + 1)).
    + right. right. right. left. cbn [fst snd]. rewrite app_nil_r.
      split; [reflexivity|]. split; [|split; [reflexivity|lia]].
      destruct sequential; [now apply only_calls_firstn | exact Hcalls].
    + right. left. unfold after, fail. cbn [fst snd]. rewrite app_nil_r.
      split; [reflexivity|]. split; [reflexivity|lia].
  - destruct (Nat.ltb_spec k (length lines)) as [Hk|Hk].
    + cbn [andb].
      destruct (Z.ltb_spec (QUEUE_MAXSIZE + (Z.of_nat k + 1)) (len lines + 1)).
      * right. right. right. right. eexists k, _. split; [reflexivity|].
        split; [|split; [reflexivity|split; [exact Hk|lia]]].
        destruct sequential; [now apply only_calls_firstn | exact Hcalls].
      * right. right. left. exists k. unfold after, fail. cbn [fst snd].
        rewrite <- app_assoc.
        split; [reflexivity|]. split; [reflexivity|]. split; [exact Hk|lia].
    + left. cbn [andb]. unfold after. cbn [fst snd]. rewrite app_nil_r.
      split; [reflexivity|]. right. exists k. split; [reflexivity|exact Hk].
Qed.

Lemma no_file_silent t :
  Forall no_file t -> opened_of t = [] /\ written_of t = [].
Proof.
  induction 1 as [|e t He _ IH]; [split; reflexivity|].
  destruct e; cbn in *; (contradiction || exact IH).
Qed.

Lemma for_each_length {A B} (f : A -> result B) xs ys :
  for_each f xs = Ok ys -> length ys = length xs.
Proof.
  intros H. apply for_each_map in H. apply (f_equal (@length _)) in H.
  rewrite !length_map in H. congruence.
Qed.

(** The three ways [main] runs: a rejected invocation, a decode, or an
    enumeration of a non-empty list of values with a prefix of 7 characters. *)
Lemma main_paths env args :
  (exists d, main env args = ([Stderr d], Exit 2))
  \/ (exists n, Args.mode args = Decode
                /\ main env args = ([Stdout (str_of_int n)], Exit 0))
  \/ (exists prefix7 start_value seq,
        Args.mode args <> Decode
        /\ len prefix7 = 7
        /\ gen_value_sequence start_value seq <> []
        /\ main env args
           = after [Called (CallGen start_value seq)]
               (enumerate env args prefix7
                  (gen_value_sequence start_value seq))).
Proof.
  destruct (main_cases env args) as [H|[[n H]|H]].
  - left. exact H.
  - destruct (Args.mode args) eqn:Hmode.
    + right. left. exists n. split; [reflexivity|exact H].
    + exfalso. revert H. unfold main.
      destruct (normalize_to_15 (Args.id args)); [|discriminate].
      match goal with |- context [match ?r with Ok _ => _ | Raise _ => _ end] =>
        destruct r as [[p cur]|]; [|discriminate] end.
      rewrite Hmode. destruct (Args.seq args) as [sq|]; [|discriminate].
      destruct (sq =? 0); [discriminate|].
      destruct (start_value_of args cur); discriminate.
    + exfalso. revert H. unfold main.
      destruct (normalize_to_15 (Args.id args)); [|discriminate].
      match goal with |- context [match ?r with Ok _ => _ | Raise _ => _ end] =>
        destruct r as [[p cur]|]; [|discriminate] end.
      rewrite Hmode. destruct (Args.seq args) as [sq|]; [|discriminate].
      destruct (sq =? 0); [discriminate|].
      destruct (start_value_of args cur); discriminate.
  - destruct H as (id15 & cur & sq & sv & Hid & Hcur & Hmode & Hseq & Hnz
                   & Hstart & Hrange).
    right. right. exists (firstn 7 id15), sv, sq.
    split; [exact Hmode|].
    split; [apply (split_and_decode id15 (normalize_to_15_len _ _ Hid))|].
    split.
    + destruct (gen_value_sequence_head sv sq Hrange Hnz) as [rest ->].
      discriminate.
    + apply (main_enumerates env args _ _ _ _ Hid Hcur Hmode Hseq Hnz Hstart).
Qed.

(** X14. No exception raised by the functions of the script leaves [main]
    (printing is taken to succeed), and its exit status is 0 or 2 unless
    the file system fails the writer of the file sink: only then, and only
    without [--displayonly] in an enumeration mode, the status is 4 or the run
    blocks. *)
Theorem main_exit_status (env : Env) (args : Args.t) :
  (forall e, snd (main env args) <> Uncaught e)
  /\ (snd (main env args) = Exit 0
      \/ snd (main env args) = Exit 2
      \/ ((snd (main env args) = Exit 4 \/ snd (main env args) = Hang)
          /\ fault env <> NoFault
          /\ Args.displayonly args = false
          /\ Args.mode args <> Decode)).
Proof.
  assert (Hmain :
    snd (main env args) = Exit 0
    \/ snd (main env args) = Exit 2
    \/ ((snd (main env args) = Exit 4 \/ snd (main env args) = Hang)
        /\ fault env <> NoFault
        /\ Args.displayonly args = false
        /\ Args.mode args <> Decode)).
  { destruct (main_paths env args)
      as [[d ->]|[(n & _ & ->)|(p & sv & sq & Hmode & Hp & Hne & ->)]].
    - right. left. reflexivity.
    - left. reflexivity.
    - unfold after. cbn [snd].
      destruct (enumerate_run env args p _ Hp Hne) as (ids & _ & Hrun).
      cbv zeta in Hrun.
      destruct (Args.displayonly args) eqn:Hd.
      + left. apply Hrun.
      + rewrite Hrun.
        match goal with
        | |- context [file_sink env ?o ?s ?c ?l None] =>
            destruct (file_sink_cases env o s c l (only_calls_make_id _ _ _))
              as [[-> _]|[(-> & Hf & _)|[(k & -> & Hf & _)
                 |[(Hh & _ & Hf & _)|(k & c' & -> & _ & Hf & _)]]]]
        end.
        * left. reflexivity.
        * right. right. repeat split; try assumption; [now left | congruence].
        * right. right. repeat split; try assumption; [now left | congruence].
        * right. right. repeat split; try assumption; [now right | congruence].
        * right. right. repeat split; try assumption; [now right | congruence]. }
  split; [|exact Hmain].
  intros e He. rewrite He in Hmain.
  destruct Hmain as [H|[H|([H|H] & _)]]; discriminate.
Qed.

(** X15. Diagnostics and results do not mix.  With status 0 nothing is written
    to the error stream; with status 2 the whole trace is one diagnostic; with
    status 4 the error stream holds the one diagnostic about the file and
    nothing is printed. *)
Theorem main_diagnostics (env : Env) (args : Args.t) :
  (snd (main env args) = Exit 0 -> stderr_of (fst (main env args)) = [])
  /\ (snd (main env args) = Exit 2 ->
      exists d, fst (main env args) = [Stderr d])
  /\ (snd (main env args) = Exit 4 ->
      stderr_of (fst (main env args)) = [DiagWriteError]
      /\ stdout_of (fst (main env args)) = []).
Proof.
  destruct (main_paths env args)
    as [[d ->]|[(n & _ & ->)|(p & sv & sq & Hmode & Hp & Hne & ->)]].
  - cbn. split; [discriminate|]. split; [eexists; reflexivity|discriminate].
  - cbn. split; [reflexivity|]. split; discriminate.
  - unfold after. cbn [fst snd app].
    destruct (enumerate_run env args p _ Hp Hne) as (ids & _ & Hrun).
    cbv zeta in Hrun.
    cbn [stderr_of stdout_of flat_map app].
    fold (stderr_of (fst (enumerate env args p (gen_value_sequence sv sq)))).
    fold (stdout_of (fst (enumerate env args p (gen_value_sequence sv sq)))).
    destruct (Args.displayonly args).
    + destruct Hrun as (Hst & _ & Herr & _). rewrite Hst, Herr.
      split; [reflexivity|]. split; discriminate.
    + rewrite Hrun.
      match goal with
      | |- context [file_sink env ?o ?s ?c ?l None] =>
          pose proof (only_calls_make_id p (Args.to18 args)
                        (gen_value_sequence sv sq)) as Hoc;
          destruct (only_calls_silent _ Hoc) as (Hc1 & Hc2 & _ & _);
          destruct (file_writes_silent l) as (Hw1 & Hw2 & _);
          destruct (file_sink_cases env o s c l Hoc)
            as [[-> _]|[(-> & _)|[(k & -> & _)
               |[(Hh & _)|(k & c' & -> & _)]]]]
      end; cbn [fst snd].
      * split; [|split; discriminate]. intros _.
        unfold stderr_of. rewrite flat_map_app.
        match goal with |- flat_map _ ?c ++ _ = _ => fold (stderr_of c) end.
        rewrite Hc2. cbn. exact Hw2.
      * split; [discriminate|]. split; [discriminate|]. intros _.
        rewrite stdout_of_app, Hc1. unfold stderr_of. rewrite flat_map_app.
        match goal with |- flat_map _ ?c ++ _ = _ /\ _ => fold (stderr_of c) end.
        rewrite Hc2. split; reflexivity.
      * split; [discriminate|]. split; [discriminate|]. intros _.
        destruct (file_writes_silent
                    (firstn k (map add_newline
                       (if Args.threads args <=? 1 then ids
                        else as_completed env ids)))) as (Hf1 & Hf2 & _).
        rewrite !stdout_of_app, Hc1. unfold stderr_of. rewrite !flat_map_app.
        match goal with |- flat_map _ ?c ++ _ = _ /\ _ => fold (stderr_of c) end.
        rewrite Hc2. cbn [flat_map app].
        match goal with |- context [flat_map _ (map FileWrite ?x)] =>
          fold (stderr_of (map FileWrite x)) end.
        cbn [stdout_of flat_map app].
        match goal with |- context [flat_map _ (map FileWrite ?x)] =>
          fold (stdout_of (map FileWrite x)) end.
        rewrite Hf1, Hf2. split; reflexivity.
      * rewrite Hh. repeat split; discriminate.
      * repeat split; discriminate.
Qed.

(** X16. Output purity.  With [--displayonly], and in decode mode, no file is
    opened or written; without [--displayonly] an enumeration mode prints
    nothing on standard output.  This holds for every number of threads and
    whatever the file system does. *)
Theorem main_output_purity (env : Env) (args : Args.t) :
  (Args.displayonly args = true \/ Args.mode args = Decode ->
   opened_of (fst (main env args)) = []
   /\ written_of (fst (main env args)) = [])
  /\ (Args.displayonly args = false -> Args.mode args <> Decode ->
      stdout_of (fst (main env args)) = []).
Proof.
  destruct (main_paths env args)
    as [[d ->]|[(n & Hdec & ->)|(p & sv & sq & Hmode & Hp & Hne & ->)]].
  - cbn. split; [split; reflexivity | reflexivity].
  - cbn. split; [split; reflexivity | intros _ H; contradiction].
  - unfold after. cbn [fst snd app].
    cbn [opened_of written_of stdout_of flat_map app].
    fold (opened_of (fst (enumerate env args p (gen_value_sequence sv sq)))).
    fold (written_of (fst (enumerate env args p (gen_value_sequence sv sq)))).
    fold (stdout_of (fst (enumerate env args p (gen_value_sequence sv sq)))).
    destruct (enumerate_run env args p _ Hp Hne) as (ids & _ & Hrun).
    cbv zeta in Hrun.
    destruct (Args.displayonly args).
    + destruct Hrun as (_ & _ & _ & Hnf).
      split; [intros _; now apply no_file_silent | discriminate].
    + split; [intros [H|H]; [discriminate|contradiction]|].
      intros _ _. rewrite Hrun.
      apply file_sink_lines, only_calls_make_id.
Qed.

Lemma written_of_sink_success calls outfile lines :
  only_calls calls ->
  written_of (calls ++ FileOpen outfile :: map FileWrite lines) = lines
  /\ opened_of (calls ++ FileOpen outfile :: map FileWrite lines) = [outfile]
  /\ stdout_of (calls ++ FileOpen outfile :: map FileWrite lines) = [].
Proof.
  intros Hc. destruct (only_calls_silent _ Hc) as (H1 & _ & H3 & H4).
  destruct (file_writes_silent lines) as (Hw1 & _ & Hw3).
  rewrite written_of_app, opened_of_app, stdout_of_app, H1, H3, H4.
  cbn [written_of opened_of stdout_of flat_map app].
  fold (written_of (map FileWrite lines)). fold (opened_of (map FileWrite lines)).
  fold (stdout_of (map FileWrite lines)).
  rewrite written_of_file_writes, Hw1, Hw3. repeat split.
Qed.

(** X17. With more than one thread the order is lost but nothing else: when
    the pool completes every future once, the lines printed (with
    [--displayonly]) are a rearrangement of the IDs composed from the
    generated values, and so are, when the file system does not fail, the
    lines written to the one output file; the status is 0. *)
Theorem parallel_enumeration (env : Env) (args : Args.t) (id15 : str)
    (current_value sq start_value : Z)
    (Hid : normalize_to_15 (Args.id args) = Ok id15)
    (Hcur : base62_to_int (skipn 7 id15) = Ok current_value)
    (Hmode : Args.mode args <> Decode)
    (Hseq : Args.seq args = Some sq) (Hnz : sq <> 0)
    (Hstart : start_value_of args current_value = inr start_value)
    (Hthreads : 1 < Args.threads args)
    (Hfair : fair_completion env) :
  let trace := fst (main env args) in
  exists ids,
    for_each (compose (firstn 7 id15) (Args.to18 args))
      (gen_value_sequence start_value sq) = Ok ids
    /\ (Args.displayonly args = true ->
        Permutation (stdout_of trace) ids /\ snd (main env args) = Exit 0)
    /\ (Args.displayonly args = false -> fault env = NoFault ->
        Permutation (written_of trace) (map add_newline ids)
        /\ opened_of trace = [outfile_of env args]
        /\ snd (main env args) = Exit 0).
Proof.
  cbv zeta.
  rewrite (main_enumerates env args _ _ _ _ Hid Hcur Hmode Hseq Hnz Hstart).
  assert (Hp : len (firstn 7 id15) = 7)
    by apply (split_and_decode id15 (normalize_to_15_len _ _ Hid)).
  assert (Hne : gen_value_sequence start_value sq <> []).
  { destruct (gen_value_sequence_head start_value sq
                (start_value_range _ _ _ _ Hid Hcur Hstart) Hnz) as [rest ->].
    discriminate. }
  destruct (enumerate_run env args _ _ Hp Hne) as (ids & Hfor & Hrun).
  cbv zeta in Hrun.
  destruct (Z.leb_spec (Args.threads args) 1) as [|_]; [lia|].
  exists ids. split; [exact Hfor|].
  unfold after. cbn [fst snd app].
  cbn [opened_of written_of stdout_of flat_map app].
  match goal with |- context [enumerate env args ?p ?v] =>
    fold (opened_of (fst (enumerate env args p v)));
    fold (written_of (fst (enumerate env args p v)));
    fold (stdout_of (fst (enumerate env args p v)))
  end.
  destruct (Args.displayonly args).
  - split; [|discriminate]. intros _.
    destruct Hrun as (Hst & Hout & _). rewrite Hout.
    split; [now apply as_completed_permutation | exact Hst].
  - split; [discriminate|]. intros _ Hfault. rewrite Hrun.
    match goal with
    | |- context [file_sink env ?o ?s ?c ?l None] =>
        pose proof (only_calls_make_id (firstn 7 id15) (Args.to18 args)
                      (gen_value_sequence start_value sq)) as Hoc;
        destruct (file_sink_cases env o s c l Hoc)
          as [[-> _]|[(_ & Hf & _)|[(k & _ & Hf & _)
             |[(_ & _ & Hf & _)|(k & c' & _ & _ & Hf & _)]]]];
        try congruence
    end.
    cbn [fst snd].
    destruct (written_of_sink_success _ (outfile_of env args)
                (map add_newline (as_completed env ids)) Hoc) as (-> & -> & _).
    split; [|split; reflexivity].
    apply Permutation_map. now apply as_completed_permutation.
Qed.

(** X19. When the output file cannot be opened, nothing is created and the
    run ends with status 4 and the diagnostic about the file, provided fewer
    lines than the queue holds (10000) were to be written; from 10000 lines
    on, the producer blocks on the full queue and [main] never returns. *)
Theorem file_open_failure (env : Env) (args : Args.t) (id15 : str)
    (current_value sq start_value : Z)
    (Hid : normalize_to_15 (Args.id args) = Ok id15)
    (Hcur : base62_to_int (skipn 7 id15) = Ok current_value)
    (Hmode : Args.mode args <> Decode)
    (Hseq : Args.seq args = Some sq) (Hnz : sq <> 0)
    (Hstart : start_value_of args current_value = inr start_value)
    (Hpool : Args.threads args <= 1 \/ fair_completion env)
    (Hfile : Args.displayonly args = false)
    (Hfault : fault env = OpenFails) :
  let n := len (gen_value_sequence start_value sq) in
  opened_of (fst (main env args)) = []
  /\ written_of (fst (main env args)) = []
  /\ (n < QUEUE_MAXSIZE ->
      snd (main env args) = Exit 4
      /\ stderr_of (fst (main env args)) = [DiagWriteError])
  /\ (QUEUE_MAXSIZE <= n -> snd (main env args) = Hang).
Proof.
  cbv zeta.
  rewrite (main_enumerates env args _ _ _ _ Hid Hcur Hmode Hseq Hnz Hstart).
  assert (Hp : len (firstn 7 id15) = 7)
    by apply (split_and_decode id15 (normalize_to_15_len _ _ Hid)).
  assert (Hne : gen_value_sequence start_value sq <> []).
  { destruct (gen_value_sequence_head start_value sq
                (start_value_range _ _ _ _ Hid Hcur Hstart) Hnz) as [rest ->].
    discriminate. }
  destruct (enumerate_run env args _ _ Hp Hne) as (ids & Hfor & Hrun).
  cbv zeta in Hrun. rewrite Hfile in Hrun.
  set (lines := if Args.threads args <=? 1 then ids else as_completed env ids)
    in Hrun.
  assert (Hlen : len (map add_newline lines)
                 = len (gen_value_sequence start_value sq)).
  { unfold len. rewrite length_map, <- (for_each_length _ _ _ Hfor).
    unfold lines. destruct (Z.leb_spec (Args.threads args) 1); [reflexivity|].
    destruct Hpool as [|Hfair]; [lia|].
    now rewrite (Permutation_length (as_completed_permutation env ids Hfair)). }
  unfold after. cbn [fst snd app].
  cbn [opened_of written_of stderr_of flat_map app].
  match goal with |- context [enumerate env args ?p ?v] =>
    fold (opened_of (fst (enumerate env args p v)));
    fold (written_of (fst (enumerate env args p v)));
    fold (stderr_of (fst (enumerate env args p v)))
  end.
  rewrite Hrun, <- Hlen.
  pose proof (only_calls_make_id (firstn 7 id15) (Args.to18 args)
                (gen_value_sequence start_value sq)) as Hoc.
  destruct (only_calls_silent _ Hoc) as (_ & Hc2 & Hc3 & Hc4).
  match goal with
  | |- context [file_sink env ?o ?s ?c ?l None] =>
      destruct (file_sink_cases env o s c l Hoc)
        as [[_ [Hf|(k & Hf & _)]]|[(-> & _ & Hsmall)|[(k & _ & Hf & _)
           |[(Hh & Hoc' & _ & Hbig)|(k & c' & _ & _ & Hf & _)]]]];
        try congruence
  end.
  - cbn [fst snd].
    rewrite opened_of_app, written_of_app, Hc3, Hc4.
    unfold stderr_of. rewrite flat_map_app.
    match goal with |- context [flat_map _ ?c ++ _] => fold (stderr_of c) end.
    rewrite Hc2.
    split; [reflexivity|]. split; [reflexivity|].
    split; [intros _; split; reflexivity | lia].
  - destruct (only_calls_silent _ Hoc') as (_ & _ & Ho & Hw).
    rewrite Ho, Hw, Hh.
    split; [reflexivity|]. split; [reflexivity|].
    split; [lia | reflexivity].
Qed.

(** ** The driver: arguments *)

(** X18. Required arguments of the enumeration modes, for a SalesforceId: a
    missing [--seq] ends the run with status 2 and the diagnostic about
    [--seq], whatever [--start] is; with a non-zero [--seq], enum-from-value
    without [--start] ends it with status 2 and the diagnostic about
    [--start].  Nothing is generated, printed or written. *)
Theorem required_arguments (env : Env) (args : Args.t)
    (Hvalid : is_salesforce_id (Args.id args) = true)
    (Hmode : Args.mode args <> Decode) :
  (Args.seq args = None ->
   main env args = ([Stderr DiagSeqRequired], Exit 2))
  /\ (forall sq, Args.seq args = Some sq -> sq <> 0 ->
      Args.mode args = EnumFromValue -> Args.start args = None ->
      main env args = ([Stderr DiagStartRequired], Exit 2)).
Proof.
  destruct (main_valid_id env args Hvalid) as (n & _ & _ & _ & ->).
  split.
  - intros ->. destruct (Args.mode args); [contradiction| |]; reflexivity.
  - intros sq -> Hnz Hm Hst. rewrite Hm.
    destruct (Z.eqb_spec sq 0); [contradiction|].
    unfold start_value_of. now rewrite Hm, Hst.
Qed.

Lemma gen_value_sequence_one v :
  0 <= v <= MAX_BASE62_8 -> gen_value_sequence v 1 = [v].
Proof.
  intros [H1 H2]. unfold gen_value_sequence.
  change (Z.to_nat (Z.abs 1)) with 1%nat. cbn [Z.eqb Z.gtb Z.compare gen_loop].
  destruct (Z.leb_spec 0 v); [|lia].
  destruct (Z.leb_spec v MAX_BASE62_8); [|lia]. reflexivity.
Qed.

(** X22. Enumerating one ID from the current one prints the identifier
    itself: for a SalesforceId, enum-from-current with [--seq 1] and
    [--displayonly] prints exactly one line and returns 0; the line is the
    first 15 characters of the identifier, and with [--to18] these 15
    characters followed by their checksum. *)
Theorem enum_from_current_one (env : Env) (args : Args.t)
    (Hvalid : is_salesforce_id (Args.id args) = true)
    (Hmode : Args.mode args = EnumFromCurrent)
    (Hseq : Args.seq args = Some 1)
    (Hdisplay : Args.displayonly args = true)
    (Hpool : Args.threads args <= 1 \/ fair_completion env) :
  exists sfid_out,
    stdout_of (fst (main env args)) = [sfid_out]
    /\ snd (main env args) = Exit 0
    /\ (Args.to18 args = false -> sfid_out = firstn 15 (Args.id args))
    /\ (Args.to18 args = true ->
        id15_to_18 (firstn 15 (Args.id args)) = Ok sfid_out).
Proof.
  destruct (main_valid_id env args Hvalid) as (n & Hnorm & Hn & Hrange & ->).
  rewrite Hmode, Hseq. cbn [Z.eqb].
  unfold start_value_of. rewrite Hmode.
  rewrite (gen_value_sequence_one n Hrange).
  pose proof (normalize_to_15_len _ _ Hnorm) as Hlen.
  destruct (split_and_decode _ Hlen) as (Hsplit & Hp & _).
  destruct (make_id_recompose _ _ _ n (Args.to18 args) Hsplit Hn)
    as (sfid & Hmk & H15 & H18).
  destruct (enumerate_run env args (firstn 7 (firstn 15 (Args.id args))) [n] Hp)
    as (ids & Hfor & Hrun); [discriminate|].
  cbn [for_each] in Hfor. unfold compose in Hfor. rewrite Hmk in Hfor.
  cbn [bind] in Hfor. injection Hfor as <-.
  cbv zeta in Hrun. rewrite Hdisplay in Hrun.
  destruct Hrun as (Hst & Hout & _).
  exists sfid. unfold after. cbn [fst snd app].
  cbn [stdout_of flat_map app].
  match goal with |- context [enumerate env args ?p ?v] =>
    fold (stdout_of (fst (enumerate env args p v))) end.
  rewrite Hout, Hst.
  split; [|split; [reflexivity|split; assumption]].
  destruct (Z.leb_spec (Args.threads args) 1); [reflexivity|].
  destruct Hpool as [|Hfair]; [lia|].
  apply Permutation_length_1_inv. apply Permutation_sym.
  now apply as_completed_permutation.
Qed.

(** ** Mode names *)

Lemma dict_get_in d key v : dict_get d key = Some v -> In v (map snd d).
Proof.
  induction d as [|[k w] d IH]; [discriminate|]. cbn.
  destruct (str_eqb k key); [intros [= <-]; now left | right; now apply IH].
Qed.

(** X20. [normalize_mode] answers one of the three names that [main] tests
    for, and each of them is normalised to itself; it raises "Mode is
    required" exactly on the empty string, so a string of blanks is an
    invalid mode, not a missing one. *)
Theorem normalize_mode_names (s : str) :
  (forall name, normalize_mode s = inr name ->
     (name = "decode" \/ name = "enum-from-value"
      \/ name = "enum-from-current")
     /\ normalize_mode name = inr name
     /\ (mode_of_name name = EnumFromCurrent -> name = "enum-from-current"))
  /\ (normalize_mode s = inl ModeRequired <-> s = [])
  /\ (s <> [] -> lower (strip s) = [] -> normalize_mode s = inl InvalidMode).
Proof.
  split; [|split].
  - intros name H. unfold normalize_mode in H.
    destruct s as [|c s]; [discriminate|].
    destruct (dict_get aliases (lower (strip (c :: s)))) as [v|] eqn:E;
      [|discriminate].
    injection H as <-. apply dict_get_in in E. cbn in E.
    destruct E as [<-|[<-|[<-|[<-|[<-|[<-|[]]]]]]];
      (split; [tauto|]); (split; [vm_compute; reflexivity|]);
      intros H; (reflexivity || (vm_compute in H; discriminate)).
  - unfold normalize_mode. split.
    + destruct s as [|c s]; [reflexivity|].
      destruct (dict_get aliases (lower (strip (c :: s)))); discriminate.
    + intros ->. reflexivity.
  - intros Hne E. unfold normalize_mode. destruct s; [contradiction|].
    rewrite E. reflexivity.
Qed.

(** ** Writing a list of IDs *)

Lemma file_events_calls calls : only_calls calls -> file_events calls = [].
Proof. induction 1 as [|e t [c ->] _ IH]; [reflexivity|]. exact IH. Qed.

Lemma file_events_writes lines :
  file_events (map FileWrite lines) = map FileWrite lines.
Proof.
  induction lines as [|l ls IH]; [reflexivity|].
  cbn. unfold file_events in IH. now rewrite IH.
Qed.

(** X21. [write_results_ids] and the writer thread of [main] agree: when the
    file system does not fail, [write_results_ids] opens the file once and
    writes the IDs in order, one per line, and these are exactly the file
    events of a sequential enumeration to the same file. *)
Theorem write_results_ids_as_main (env : Env) (args : Args.t) (id15 : str)
    (current_value sq start_value : Z)
    (Hid : normalize_to_15 (Args.id args) = Ok id15)
    (Hcur : base62_to_int (skipn 7 id15) = Ok current_value)
    (Hmode : Args.mode args <> Decode)
    (Hseq : Args.seq args = Some sq) (Hnz : sq <> 0)
    (Hstart : start_value_of args current_value = inr start_value)
    (Hthreads : Args.threads args <= 1)
    (Hfile : Args.displayonly args = false)
    (Hfault : fault env = NoFault) :
  exists ids,
    for_each (compose (firstn 7 id15) (Args.to18 args))
      (gen_value_sequence start_value sq) = Ok ids
    /\ write_results_ids env (outfile_of env args) ids
       = (FileOpen (outfile_of env args) :: map FileWrite (map add_newline ids),
          false)
    /\ file_events (fst (main env args))
       = fst (write_results_ids env (outfile_of env args) ids).
Proof.
  rewrite (main_enumerates env args _ _ _ _ Hid Hcur Hmode Hseq Hnz Hstart).
  assert (Hp : len (firstn 7 id15) = 7)
    by apply (split_and_decode id15 (normalize_to_15_len _ _ Hid)).
  assert (Hne : gen_value_sequence start_value sq <> []).
  { destruct (gen_value_sequence_head start_value sq
                (start_value_range _ _ _ _ Hid Hcur Hstart) Hnz) as [rest ->].
    discriminate. }
  destruct (enumerate_run env args _ _ Hp Hne) as (ids & Hfor & Hrun).
  cbv zeta in Hrun. rewrite Hfile in Hrun.
  destruct (Z.leb_spec (Args.threads args) 1) as [_|]; [|lia].
  exists ids. split; [exact Hfor|].
  assert (Hw : write_results_ids env (outfile_of env args) ids
               = (FileOpen (outfile_of env args)
                    :: map FileWrite (map add_newline ids), false)).
  { unfold write_results_ids. rewrite Hfault, map_map. reflexivity. }
  split; [exact Hw|]. rewrite Hw, Hrun.
  pose proof (only_calls_make_id (firstn 7 id15) (Args.to18 args)
                (gen_value_sequence start_value sq)) as Hoc.
  match goal with
  | |- context [file_sink env ?o ?s ?c ?l None] =>
      destruct (file_sink_cases env o s c l Hoc)
        as [[-> _]|[(_ & Hf & _)|[(k & _ & Hf & _)
           |[(_ & _ & Hf & _)|(k & c' & _ & _ & Hf & _)]]]];
        try congruence
  end.
  unfold after. cbn [fst snd app]. unfold file_events. cbn [filter].
  rewrite filter_app. fold (file_events
    (map (fun v => Called (CallMakeId (firstn 7 id15) v (Args.to18 args)))
       (gen_value_sequence start_value sq))).
  rewrite (file_events_calls _ Hoc). cbn [app filter]. f_equal.
  apply file_events_writes.
Qed.

(** ** Order of the encodings *)

(** The alphabet is written in the order of its code points. *)
Lemma find_alphabet_mono c d :
  ascii_alnum c = true -> ascii_alnum d = true ->
  (find ALPHABET c < find ALPHABET d <-> (c < d)%N).
Proof.
  intros Hc Hd.
  pose proof (ascii_alnum_is_ascii c Hc) as Hac.
  pose proof (ascii_alnum_is_ascii d Hd) as Had.
  pose proof (ascii_all
    (fun c => forallb
       (fun d => implb (ascii_alnum c && ascii_alnum d)
                   (Bool.eqb (find ALPHABET c <? find ALPHABET d) (c <? d)%N))
       (map N.of_nat (List.seq 0 128)))
    ltac:(vm_compute; reflexivity) c Hac) as H; cbv beta in H.
  pose proof (ascii_all _ H d Had) as H'; cbv beta in H'.
  rewrite Hc, Hd in H'. cbn [andb implb] in H'. apply eqb_prop in H'.
  rewrite <- Z.ltb_lt, <- N.ltb_lt, H'. reflexivity.
Qed.

Lemma base62_fold_order s t m m' a b :
  length s = length t -> 0 <= m -> 0 <= m' ->
  base62_fold s m = Ok a -> base62_fold t m' = Ok b ->
  (a < b <-> m < m' \/ (m = m' /\ str_ltb s t = true)).
Proof.
  revert t m m'. induction s as [|c s IH]; intros [|d t] m m' Hlen Hm Hm' Hs Ht;
    try discriminate.
  - cbn in Hs, Ht. injection Hs as <-. injection Ht as <-. cbn.
    split; [intros H; now left | intros [H|[_ H]]; [exact H|discriminate]].
  - cbn [base62_fold] in Hs, Ht.
    pose proof (find_alphabet_alnum c) as Hac.
    pose proof (find_alphabet_alnum d) as Had.
    destruct (find_alphabet_range c) as [E|Hc]; [rewrite E in Hs; discriminate|].
    destruct (find_alphabet_range d) as [E|Hd]; [rewrite E in Ht; discriminate|].
    destruct (Z.eqb_spec (find ALPHABET c) (-1)); [lia|].
    destruct (Z.eqb_spec (find ALPHABET d) (-1)); [lia|].
    cbn [negb] in Hac, Had.
    rewrite BASE_eq in *.
    rewrite (IH t (m * 62 + find ALPHABET c) (m' * 62 + find ALPHABET d));
      try assumption; try lia; [|simpl in Hlen; lia].
    pose proof (find_alphabet_mono c d Hac Had) as Hlt.
    assert (Heq : find ALPHABET c = find ALPHABET d <-> c = d).
    { split; [apply find_alphabet_inj; lia | now intros ->]. }
    cbn [str_ltb]. rewrite orb_true_iff, andb_true_iff, N.ltb_lt, N.eqb_eq.
    rewrite <- Hlt, <- Heq. split.
    + intros [H|[H H']]; [|right; split; [lia|right; split; [lia|exact H']]].
      destruct (Z.lt_trichotomy m m') as [?|[?|?]]; [now left| |lia].
      right. split; [assumption|]. left. lia.
    + intros [H|[-> [H|[H H']]]]; [left; lia | left; lia |].
      right. split; [lia|exact H'].
Qed.

(** X23. Encodings of one width sort like the integers: for [n] and [m] in
    [0, 62^8 - 1], [n < m] exactly when the 8-character encoding of [n] comes
    before that of [m] in the order of code points. *)
Theorem int_to_base62_order (n m : Z) (s t : str)
    (Hn : 0 <= n <= MAX_BASE62_8) (Hm : 0 <= m <= MAX_BASE62_8)
    (Hs : int_to_base62 n 8 = Ok s) (Ht : int_to_base62 m 8 = Ok t) :
  n < m <-> str_ltb s t = true.
Proof.
  destruct (int_to_base62_8 n Hn) as (s' & Hs' & Hls & Hds).
  destruct (int_to_base62_8 m Hm) as (t' & Ht' & Hlt & Hdt).
  assert (s' = s) by congruence. assert (t' = t) by congruence. subst s' t'.
  rewrite (base62_fold_order s t 0 0 n m); try assumption; try lia.
  - split; [intros [H|[_ H]]; [lia|exact H] | intros H; right; now split].
  - unfold len in *. lia.
Qed.

(** ** Normalisation and the counter *)

(** X24. For an input of ASCII characters that [normalize_to_15] accepts, the
    rest of the validation cannot fail: the result splits into a prefix of 7
    and a counter of 8 characters that make it up, the counter decodes to an
    integer of [0, 62^8 - 1], and normalising the result again leaves it
    unchanged. *)
Theorem normalize_then_decode (s core : str)
    (Hascii : forallb is_ascii s = true)
    (Hnorm : normalize_to_15 s = Ok core) :
  exists prefix7 counter8 n,
    split_id_components core = Ok (prefix7, counter8)
    /\ prefix7 ++ counter8 = core
    /\ len prefix7 = 7 /\ len counter8 = 8
    /\ base62_to_int counter8 = Ok n
    /\ 0 <= n <= MAX_BASE62_8
    /\ normalize_to_15 core = Ok core.
Proof.
  pose proof (normalize_to_15_len _ _ Hnorm) as Hlen.
  destruct (split_and_decode core Hlen) as (Hsplit & H7 & H8).
  assert (Halnum : forallb ascii_alnum core = true).
  { rewrite (normalize_to_15_ascii s Hascii) in Hnorm.
    destruct ((len (strip s) =? 18) || (len (strip s) =? 15));
      [|destruct s; discriminate].
    destruct (forallb ascii_alnum (firstn 15 (strip s))) eqn:E; [|discriminate].
    assert (core = firstn 15 (strip s)) as -> by congruence. exact E. }
  destruct (base62_fold_alnum (skipn 7 core) 0) as [n Hn];
    [now apply forallb_skipn|].
  exists (firstn 7 core), (skipn 7 core), n.
  split; [exact Hsplit|]. split; [apply firstn_skipn|].
  split; [exact H7|]. split; [exact H8|]. split; [exact Hn|].
  split; [exact (base62_to_int_8 _ _ H8 Hn)|].
  assert (Hvalid : is_salesforce_id core = true).
  { unfold is_salesforce_id. rewrite Hlen, Halnum. reflexivity. }
  destruct (normalize_to_15_valid _ Hvalid) as (Hn' & _).
  rewrite Hn'. f_equal. apply firstn_all2. unfold len in Hlen. lia.
Qed.

(** ** Values outside the range *)

(** X25. [make_id] treats a value outside the counter range like the nearest
    bound.  With a prefix of 7 characters every value up to 0 gives the
    counter ["00000000"] and the value 0, every value from [62^8 - 1] on gives
    ["zzzzzzzz"] and [62^8 - 1], and the result is always that of the clamped
    value: outside the range different values get the same ID. *)
Theorem make_id_saturates (prefix7 : str) (value : Z) (to18 : bool)
    (Hprefix : len prefix7 = 7) :
  make_id prefix7 value to18
  = make_id prefix7 (clamp_record_value value) to18
  /\ (value <= 0 ->
      exists id_out,
        make_id prefix7 value to18 = Ok (id_out, "00000000", 0)
        /\ firstn 15 id_out = prefix7 ++ "00000000")
  /\ (MAX_BASE62_8 <= value ->
      exists id_out,
        make_id prefix7 value to18 = Ok (id_out, "zzzzzzzz", MAX_BASE62_8)
        /\ firstn 15 id_out = prefix7 ++ "zzzzzzzz").
Proof.
  pose proof MAX_BASE62_8_eq as HM.
  assert (Hl7 : length prefix7 = 7%nat) by (unfold len in Hprefix; lia).
  assert (Hshape : forall b62 : str, length b62 = 8%nat ->
            exists id_out,
              (if to18 then id15_to_18 (prefix7 ++ b62)
               else Ok (prefix7 ++ b62)) = Ok id_out
              /\ firstn 15 id_out = prefix7 ++ b62).
  { intros b62 Hb.
    assert (Hl15 : length (prefix7 ++ b62) = 15%nat)
      by (rewrite length_app; lia).
    destruct to18.
    - destruct (id15_to_18_suffix (prefix7 ++ b62))
        as (suffix & H18 & _); [unfold len; lia|].
      eexists. split; [exact H18|]. now apply firstn_app_exact.
    - eexists. split; [reflexivity|]. apply firstn_all2. lia. }
  split; [|split].
  - unfold make_id.
    now rewrite (clamp_record_value_id _ (clamp_record_value_range value)).
  - intros Hv. destruct (Hshape "00000000" eq_refl) as (id_out & Hid & Hf).
    exists id_out. split; [|exact Hf]. unfold make_id.
    replace (clamp_record_value value) with 0
      by (unfold clamp_record_value; lia).
    replace (int_to_base62 0 8) with (@Ok str "00000000")
      by (vm_compute; reflexivity).
    cbn [bind]. rewrite Hid. reflexivity.
  - intros Hv. destruct (Hshape "zzzzzzzz" eq_refl) as (id_out & Hid & Hf).
    exists id_out. split; [|exact Hf]. unfold make_id.
    replace (clamp_record_value value) with MAX_BASE62_8
      by (unfold clamp_record_value; lia).
    replace (int_to_base62 MAX_BASE62_8 8) with (@Ok str "zzzzzzzz")
      by (vm_compute; reflexivity).
    cbn [bind]. rewrite Hid. reflexivity.
Qed.

(** ** A failing write *)


End Tool.

(** * Instances

    The statements above, at concrete inputs, with the database [latin1]. *)

Lemma C1_base62_round_trip_witness :
  (exists s, int_to_base62 3844 8 = Ok s /\ len s = 8
             /\ base62_to_int s = Ok 3844)
  /\ (exists s, int_to_base62 3844 5 = Ok s /\ len s = 5
                /\ base62_to_int s = Ok 3844).
Proof.
  pose proof (C1_base62_round_trip 3844 ltac:(lia)) as [H8 Hk].
  split.
  - apply H8. vm_compute. discriminate.
  - apply (Hk 5 "100"); [vm_compute; reflexivity | vm_compute; discriminate].
Defined.

Lemma C3_gen_value_sequence_witness :
  gen_value_sequence 7 0 = []
  /\ exists n : nat,
       Z.of_nat n <= Z.abs (-3)
       /\ gen_value_sequence 1 (-3)
          = map (fun i => 1 + (-1) * Z.of_nat i) (List.seq 0 n)
       /\ (forall i, (i < n)%nat -> 0 <= 1 + (-1) * Z.of_nat i <= MAX_BASE62_8)
       /\ (Z.of_nat n < Z.abs (-3) ->
           ~ (0 <= 1 + (-1) * Z.of_nat n <= MAX_BASE62_8)).
Proof.
  split.
  - apply (proj1 (C3_gen_value_sequence 7 0)). reflexivity.
  - apply (proj1 (proj2 (C3_gen_value_sequence 1 (-3)))). discriminate.
Defined.

Lemma C5_make_id_clamps_witness :
  clamp_record_value (-5) = 0
  /\ exists b62 suffix,
       int_to_base62 0 8 = Ok b62 /\ len b62 = 8 /\ len suffix = 3
       /\ id15_to_18 latin1 ("001Vc00" ++ b62)
          = Ok (("001Vc00" ++ b62) ++ suffix)
       /\ make_id latin1 "001Vc00" (-5) true
          = Ok (("001Vc00" ++ b62) ++ suffix, b62, 0).
Proof.
  destruct (C5_make_id_clamps latin1 "001Vc00" (-5) true eq_refl)
    as (_ & _ & Hneg & _ & Hex).
  split; [apply Hneg; lia | exact Hex].
Defined.




Lemma C8_sequential_order_witness :
  stdout_of
    (fst (main latin1 env0 (args0 EnumFromCurrent None (Some (-2)) true)))
  = ["001Vc00000PHoN1"; "001Vc00000PHoN0"]
  /\ written_of
       (fst (main latin1 env0 (args0 EnumFromValue (Some 61) (Some 2) false)))
     = [add_newline "001Vc000000000z"; add_newline "001Vc0000000010"].
Proof.
  assert (Hcurrent : EnumFromCurrent <> Decode) by discriminate.
  assert (Hvalue : EnumFromValue <> Decode) by discriminate.
  assert (Hdown : -2 <> 0) by discriminate.
  assert (Hup : 2 <> 0) by discriminate.
  assert (Hthreads : 1 <= 1) by discriminate.
  split.
  - destruct (C8_sequential_order latin1 env0
                (args0 EnumFromCurrent None (Some (-2)) true)
                "001Vc00000PHoN1" 373653603 (-2) 373653603
                eq_refl eq_refl Hcurrent eq_refl Hdown eq_refl Hthreads)
      as (ids & Hfor & Hconsole & _).
    destruct (Hconsole eq_refl) as (Hout & _).
    vm_compute in Hfor. injection Hfor as <-. exact Hout.
  - destruct (C8_sequential_order latin1 env0
                (args0 EnumFromValue (Some 61) (Some 2) false)
                "001Vc00000PHoN1" 373653603 2 61
                eq_refl eq_refl Hvalue eq_refl Hup eq_refl Hthreads)
      as (ids & Hfor & _ & Hfile).
    destruct (Hfile eq_refl) as (_ & _ & Hall).
    destruct (Hall eq_refl) as (Hw & _).
    vm_compute in Hfor. injection Hfor as <-. exact Hw.
Defined.

Lemma C9_start_out_of_range_witness :
  main latin1 env0 (args0 EnumFromValue (Some (62 ^ 8)) (Some 5) true)
  = ([Stderr DiagStartRange], Exit 2).
Proof.
  assert (Hout : 62 ^ 8 < 0 \/ MAX_BASE62_8 < 62 ^ 8)
    by (right; reflexivity).
  apply (proj2 (C9_start_out_of_range latin1 env0
                  (args0 EnumFromValue (Some (62 ^ 8)) (Some 5) true)
                  (62 ^ 8) eq_refl eq_refl Hout) 5);
    [reflexivity | reflexivity | discriminate].
Defined.

Lemma C4_zero_seq_rejected_witness :
  main latin1 env0 (args0 EnumFromValue (Some 0) (Some 0) false)
  = ([Stderr DiagSeqRequired], Exit 2).
Proof.
  assert (Hmode : EnumFromValue <> Decode) by discriminate.
  destruct (C4_zero_seq_rejected latin1 env0
              (args0 EnumFromValue (Some 0) (Some 0) false) Hmode eq_refl)
    as (_ & _ & H & _).
  apply H. reflexivity.
Defined.

(** C4 as stated fails: with [seq = 0] the generator would yield nothing,
    and the run ends with status 2, not 3. *)
Lemma C4_counterexample :
  ~ (gen_value_sequence 0 0 = [] ->
     snd (main latin1 env0 (args0 EnumFromValue (Some 0) (Some 0) false))
     = Exit 3).
Proof.
  intros H. specialize (H eq_refl). vm_compute in H. discriminate.
Qed.

Lemma C10_empty_result_unreachable_witness :
  snd (main latin1 env0 (args0 EnumFromCurrent None (Some (-2)) true)) <> Exit 3
  /\ 0 <= 373653603 <= MAX_BASE62_8
  /\ gen_value_sequence 373653603 (-2) <> [].
Proof.
  destruct (C10_empty_result_unreachable latin1 env0
              (args0 EnumFromCurrent None (Some (-2)) true)) as [Hstatus Hgen].
  split; [exact Hstatus|].
  destruct (Hgen 373653603 (-2)) as (Hrange & _ & Hne);
    [left; reflexivity|].
  split; [exact Hrange | exact Hne].
Defined.

(** With [latin1] a letter outside ASCII passes [str.isalnum]: in the prefix
    it is accepted, in the counter it is no base-62 digit. *)
Example latin1_letter_in_prefix :
  main latin1 env0
    {| Args.id := 233%N :: "01Vc00000PHoN1"; Args.mode := Decode;
       Args.start := None; Args.seq := None; Args.threads := 50;
       Args.displayonly := false; Args.outfile := None; Args.to18 := false |}
  = ([Stdout "373653603"], Exit 0).
Proof. vm_compute. reflexivity. Qed.

Example latin1_letter_in_counter :
  main latin1 env0
    {| Args.id := "001Vc00000PHoN" ++ [233%N]; Args.mode := Decode;
       Args.start := None; Args.seq := None; Args.threads := 50;
       Args.displayonly := false; Args.outfile := None; Args.to18 := false |}
  = ([Stderr (DiagError (InvalidBase62Char 233))], Exit 2).
Proof. vm_compute. reflexivity. Qed.

(** ** Instances of the further properties *)

Lemma int_to_base62_domain_witness :
  int_to_base62 (-1) 8 = Raise NegativeInteger
  /\ exists s, int_to_base62 61 3 = Ok s
               /\ forallb ascii_alnum s = true /\ 1 <= len s /\ 3 <= len s.
Proof.
  destruct (int_to_base62_domain (-1) 8) as [Hneg _].
  destruct (int_to_base62_domain 61 3) as [_ Hpos].
  split; [apply Hneg; lia | apply Hpos; lia].
Defined.

Lemma base62_decode_encode_witness :
  int_to_base62 373653603 (len "000PHoN1") = Ok "000PHoN1".
Proof.
  assert (Hne : "000PHoN1" <> []) by discriminate.
  apply (proj1 (base62_decode_encode "000PHoN1" 373653603 Hne eq_refl)).
Defined.

Lemma base62_to_int_error_witness :
  base62_to_int "00-1+" = Raise (InvalidBase62Char (chr "-")).
Proof.
  apply (proj2 (base62_to_int_error "00-1+" (InvalidBase62Char (chr "-")))).
  exists "00", (chr "-"), "1+". repeat split.
Defined.

Lemma base62_to_int_bound_and_padding_witness :
  0 <= 62 < BASE ^ len "10"
  /\ base62_to_int (repeat (chr "0") 6 ++ "10") = Ok 62.
Proof.
  destruct (base62_to_int_bound_and_padding "10" 62 eq_refl) as [Hb Hp].
  split; [exact Hb | exact (Hp 6%nat)].
Defined.

Lemma int_to_base62_natural_witness :
  exists d,
    int_to_base62 3844 1 = Ok d
    /\ BASE ^ (len d - 1) <= 3844 < BASE ^ len d
    /\ hd_error d <> Some (chr "0")
    /\ forall min_len,
         int_to_base62 3844 min_len
         = Ok (repeat (chr "0") (Z.to_nat (min_len - len d)) ++ d).
Proof. apply (int_to_base62_natural 3844). reflexivity. Defined.

Lemma id15_to_18_shape_witness :
  id15_to_18 latin1 "001Vc00000PHoN" = Raise Not15ForChecksum
  /\ exists suffix,
       id15_to_18 latin1 "001Vc00000PHoN1" = Ok ("001Vc00000PHoN1" ++ suffix)
       /\ len suffix = 3 /\ len ("001Vc00000PHoN1" ++ suffix) = 18
       /\ forallb checksum_char suffix = true.
Proof.
  split.
  - apply (proj1 (id15_to_18_shape latin1 "001Vc00000PHoN")). discriminate.
  - apply (proj2 (id15_to_18_shape latin1 "001Vc00000PHoN1")). reflexivity.
Defined.

Lemma id15_to_18_suffix_is_case_pattern_witness :
  ("IAL" : str) = "IAL"
  <-> map (isupper latin1) "001Vc00000PHoN1"
      = map (isupper latin1) "abcDe12345XYzW9".
Proof.
  apply (id15_to_18_suffix_is_case_pattern latin1
           "001Vc00000PHoN1" "abcDe12345XYzW9" "IAL" "IAL");
    reflexivity.
Defined.

Lemma normalize_id15_to_18_witness :
  exists id18,
    id15_to_18 latin1 "001Vc00000PHoN1" = Ok id18
    /\ is_salesforce_id id18 = true
    /\ normalize_to_15 latin1 id18 = Ok "001Vc00000PHoN1".
Proof.
  apply (normalize_id15_to_18 latin1 "001Vc00000PHoN1"); reflexivity.
Defined.

Lemma make_id_of_split_witness :
  exists id_out,
    make_id latin1 "001Vc00" 373653603 true = Ok (id_out, "000PHoN1", 373653603)
    /\ (true = false -> id_out = "001Vc00000PHoN1")
    /\ (true = true -> id15_to_18 latin1 "001Vc00000PHoN1" = Ok id_out).
Proof.
  apply (make_id_of_split latin1 "001Vc00000PHoN1" "001Vc00" "000PHoN1"
           373653603 true); reflexivity.
Defined.

Lemma make_id_reads_back_witness :
  exists id_out b62,
    make_id latin1 "001Vc00" (-7) true = Ok (id_out, b62, clamp_record_value (-7))
    /\ split_id_components (firstn 15 id_out) = Ok ("001Vc00", b62)
    /\ base62_to_int b62 = Ok (clamp_record_value (-7))
    /\ (forallb ascii_alnum "001Vc00" = true ->
        is_salesforce_id id_out = true
        /\ normalize_to_15 latin1 id_out = Ok ("001Vc00" ++ b62)).
Proof. apply (make_id_reads_back latin1 "001Vc00" (-7) true). reflexivity. Defined.

Lemma gen_value_sequence_reverse_witness :
  gen_value_sequence (5 + 3 - 1) (- 3) = rev (gen_value_sequence 5 3)
  /\ len (gen_value_sequence 5 3) = 3.
Proof.
  assert (Hhi : 5 + 3 - 1 <= MAX_BASE62_8) by discriminate.
  apply (gen_value_sequence_reverse 5 3); [reflexivity | discriminate | exact Hhi].
Defined.

Lemma enumerated_ids_decode_witness :
  exists ids,
    for_each (compose latin1 "001Vc00" true) (gen_value_sequence 61 2) = Ok ids
    /\ map (fun sfid => base62_to_int (skipn 7 (firstn 15 sfid))) ids
       = map Ok (gen_value_sequence 61 2)
    /\ NoDup ids
    /\ Forall (fun sfid => firstn 7 sfid = "001Vc00"
                           /\ len sfid = (if true then 18 else 15)) ids.
Proof. apply (enumerated_ids_decode latin1 "001Vc00" true 61 2). reflexivity. Defined.

Lemma main_diagnostics_witness :
  stderr_of (fst (main latin1 env0 (args0 Decode None None false))) = []
  /\ exists d,
       fst (main latin1 env0 (args0 EnumFromValue None (Some 3) false))
       = [Stderr d].
Proof.
  split.
  - apply (proj1 (main_diagnostics latin1 env0 (args0 Decode None None false))).
    reflexivity.
  - apply (proj1 (proj2 (main_diagnostics latin1 env0
                           (args0 EnumFromValue None (Some 3) false)))).
    reflexivity.
Defined.

Lemma main_output_purity_witness :
  (opened_of (fst (main latin1 env0
                     (args0 EnumFromCurrent None (Some 2) true))) = []
   /\ written_of (fst (main latin1 env0
                         (args0 EnumFromCurrent None (Some 2) true))) = [])
  /\ stdout_of (fst (main latin1 env0
                       (args0 EnumFromCurrent None (Some 2) false))) = [].
Proof.
  split.
  - apply (proj1 (main_output_purity latin1 env0
                    (args0 EnumFromCurrent None (Some 2) true))).
    left. reflexivity.
  - apply (proj2 (main_output_purity latin1 env0
                    (args0 EnumFromCurrent None (Some 2) false)));
      [reflexivity | discriminate].
Defined.

(** The invocation [args0] with 50 threads. *)
Lemma parallel_enumeration_witness :
  exists ids,
    for_each (compose latin1 "001Vc00" false) (gen_value_sequence 61 2) = Ok ids
    /\ Permutation
         (stdout_of
            (fst (main latin1 env0
                    {| Args.id := "001Vc00000PHoN1IAL";
                       Args.mode := EnumFromValue; Args.start := Some 61;
                       Args.seq := Some 2; Args.threads := 50;
                       Args.displayonly := true; Args.outfile := None;
                       Args.to18 := false |}))) ids.
Proof.
  assert (Hmode : EnumFromValue <> Decode) by discriminate.
  assert (Hnz : 2 <> 0) by discriminate.
  assert (Hthreads : 1 < 50) by reflexivity.
  assert (Hfair : fair_completion env0) by (intros n; apply Permutation_refl).
  destruct (parallel_enumeration latin1 env0
              {| Args.id := "001Vc00000PHoN1IAL";
                 Args.mode := EnumFromValue; Args.start := Some 61;
                 Args.seq := Some 2; Args.threads := 50;
                 Args.displayonly := true; Args.outfile := None;
                 Args.to18 := false |}
              "001Vc00000PHoN1" 373653603 2 61
              eq_refl eq_refl Hmode eq_refl Hnz eq_refl Hthreads Hfair)
    as (ids & Hfor & Hconsole & _).
  exists ids. split; [exact Hfor|]. apply (Hconsole eq_refl).
Defined.

Lemma required_arguments_witness :
  main latin1 env0 (args0 EnumFromCurrent (Some 5) None true)
  = ([Stderr DiagSeqRequired], Exit 2)
  /\ main latin1 env0 (args0 EnumFromValue None (Some 3) true)
     = ([Stderr DiagStartRequired], Exit 2).
Proof.
  assert (Hcurrent : EnumFromCurrent <> Decode) by discriminate.
  assert (Hvalue : EnumFromValue <> Decode) by discriminate.
  assert (Hnz : 3 <> 0) by discriminate.
  split.
  - apply (proj1 (required_arguments latin1 env0
                    (args0 EnumFromCurrent (Some 5) None true)
                    eq_refl Hcurrent)).
    reflexivity.
  - apply (proj2 (required_arguments latin1 env0
                    (args0 EnumFromValue None (Some 3) true)
                    eq_refl Hvalue) 3 eq_refl Hnz eq_refl eq_refl).
Defined.

Lemma file_open_failure_witness :
  snd (main latin1 (env_with_fault OpenFails)
         (args0 EnumFromValue (Some 61) (Some 2) false)) = Exit 4
  /\ fst (main latin1 (env_with_fault OpenFails)
            (args0 EnumFromValue (Some 61) (Some 2) false))
     <> []
  /\ opened_of (fst (main latin1 (env_with_fault OpenFails)
                       (args0 EnumFromValue (Some 61) (Some 2) false))) = [].
Proof.
  assert (Hmode : EnumFromValue <> Decode) by discriminate.
  assert (Hnz : 2 <> 0) by discriminate.
  assert (Hpool : 1 <= 1 \/ fair_completion (env_with_fault OpenFails))
    by (left; discriminate).
  destruct (file_open_failure latin1 (env_with_fault OpenFails)
              (args0 EnumFromValue (Some 61) (Some 2) false)
              "001Vc00000PHoN1" 373653603 2 61
              eq_refl eq_refl Hmode eq_refl Hnz eq_refl Hpool eq_refl eq_refl)
    as (Hopen & _ & Hsmall & _).
  destruct Hsmall as [Hstatus Herr]; [reflexivity|].
  split; [exact Hstatus|]. split; [|exact Hopen].
  intros E. rewrite E in Herr. discriminate.
Defined.

Lemma normalize_mode_names_witness :
  normalize_mode latin1 latin1_case "enum-from-current"
  = inr "enum-from-current"
  /\ normalize_mode latin1 latin1_case "   " = inl InvalidMode.
Proof.
  destruct (normalize_mode_names latin1 latin1_case "   ") as (_ & _ & Hblank).
  split; [|apply Hblank; [discriminate|reflexivity]].
  destruct (normalize_mode_names latin1 latin1_case " EFC ") as (Hname & _ & _).
  destruct (Hname "enum-from-current" eq_refl) as (_ & Hidem & _).
  exact Hidem.
Defined.

Lemma write_results_ids_as_main_witness :
  exists ids,
    file_events (fst (main latin1 env0
                        (args0 EnumFromValue (Some 61) (Some 2) false)))
    = fst (write_results_ids env0 "sfidenum-20240101-000000.txt" ids)
    /\ ids = ["001Vc000000000z"; "001Vc0000000010"].
Proof.
  assert (Hmode : EnumFromValue <> Decode) by discriminate.
  assert (Hnz : 2 <> 0) by discriminate.
  assert (Hthreads : 1 <= 1) by discriminate.
  destruct (write_results_ids_as_main latin1 env0
              (args0 EnumFromValue (Some 61) (Some 2) false)
              "001Vc00000PHoN1" 373653603 2 61
              eq_refl eq_refl Hmode eq_refl Hnz eq_refl Hthreads eq_refl eq_refl)
    as (ids & Hfor & _ & Hev).
  exists ids. split; [exact Hev|].
  vm_compute in Hfor. injection Hfor as <-. reflexivity.
Defined.

Lemma enum_from_current_one_witness :
  exists sfid_out,
    stdout_of
      (fst (main latin1 env0
              {| Args.id := "001Vc00000PHoN1"; Args.mode := EnumFromCurrent;
                 Args.start := None; Args.seq := Some 1; Args.threads := 1;
                 Args.displayonly := true; Args.outfile := None;
                 Args.to18 := true |})) = [sfid_out]
    /\ id15_to_18 latin1 "001Vc00000PHoN1" = Ok sfid_out.
Proof.
  assert (Hpool : 1 <= 1 \/ fair_completion env0) by (left; discriminate).
  destruct (enum_from_current_one latin1 env0
              {| Args.id := "001Vc00000PHoN1"; Args.mode := EnumFromCurrent;
                 Args.start := None; Args.seq := Some 1; Args.threads := 1;
                 Args.displayonly := true; Args.outfile := None;
                 Args.to18 := true |}
              eq_refl eq_refl eq_refl eq_refl Hpool)
    as (sfid & Hout & _ & _ & H18).
  exists sfid. split; [exact Hout | exact (H18 eq_refl)].
Defined.

Lemma int_to_base62_order_witness :
  61 < 62 <-> str_ltb "0000000z" "00000010" = true.
Proof.
  assert (H61 : 0 <= 61 <= MAX_BASE62_8) by (split; discriminate).
  assert (H62 : 0 <= 62 <= MAX_BASE62_8) by (split; discriminate).
  apply (int_to_base62_order 61 62 "0000000z" "00000010" H61 H62);
    reflexivity.
Defined.

Lemma normalize_then_decode_witness :
  exists prefix7 counter8 n,
    split_id_components "001Vc00000PHoN1" = Ok (prefix7, counter8)
    /\ prefix7 ++ counter8 = "001Vc00000PHoN1"
    /\ len prefix7 = 7 /\ len counter8 = 8
    /\ base62_to_int counter8 = Ok n
    /\ 0 <= n <= MAX_BASE62_8
    /\ normalize_to_15 latin1 "001Vc00000PHoN1" = Ok "001Vc00000PHoN1".
Proof.
  apply (normalize_then_decode latin1 " 001Vc00000PHoN1-+- " "001Vc00000PHoN1");
    reflexivity.
Defined.

Lemma make_id_saturates_witness :
  (exists id_out,
     make_id latin1 "001Vc00" (-3) false = Ok (id_out, "00000000", 0)
     /\ firstn 15 id_out = "001Vc00" ++ "00000000")
  /\ exists id_out,
       make_id latin1 "001Vc00" (62 ^ 8 + 5) false
       = Ok (id_out, "zzzzzzzz", MAX_BASE62_8)
       /\ firstn 15 id_out = "001Vc00" ++ "zzzzzzzz".
Proof.
  split.
  - apply (proj1 (proj2 (make_id_saturates latin1 "001Vc00" (-3) false eq_refl))).
    discriminate.
  - apply (proj2 (proj2 (make_id_saturates latin1 "001Vc00" (62 ^ 8 + 5) false
                           eq_refl))).
    discriminate.
Defined.

